(** * Project Prometheus: the discover page's stream client and the ranking engine

    A shallow embedding of the client logic of the discover page
    (handleDiscovery, handleStreamData, processStream, handleRetry) and of
    the dominance engine the specification describes, with the properties
    the specification states about them. *)

From Stdlib Require Import Ascii String QArith Floats DecimalString.
From stdpp Require Import gmap strings list fin_maps.

Local Open Scope string_scope.
Local Open Scope list_scope.
Local Open Scope nat_scope.

(* ===================================================================== *)
(** ** JavaScript values *)
(* ===================================================================== *)

(** A value as [JSON.parse] can produce it (plus [undefined], the result of
    reading a property that is not there). Numbers are IEEE doubles, objects
    are finite maps from property names to values. A string stands for the
    JavaScript string whose UTF-8 encoding it holds, byte by byte: the
    newline is the byte 10 and the prefix of a data line is six bytes. *)
#[warnings="-register-all"]
Inductive JsValue :=
  | JUndefined
  | JNull
  | JBool (b : bool)
  | JNum (x : float)
  | JStr (s : string)
  | JArr (l : list JsValue)
  | JObj (fields : gmap string JsValue).

(** [if (v)]: the values that count as true. *)
Definition truthy (v : JsValue) : bool :=
  match v with
  | JUndefined | JNull => false
  | JBool b => b
  | JNum x => negb (PrimFloat.eqb x 0 || PrimFloat.is_nan x)
  | JStr s => negb (String.eqb s "")
  | JArr _ | JObj _ => true
  end.

(** [v.k] for a value that is neither [null] nor [undefined]; the keys read
    by the page (agent, status, log, pareto_front, final_candidate) are own
    properties of objects only. *)
Definition getProp (v : JsValue) (k : string) : JsValue :=
  match v with
  | JObj fields => default JUndefined (fields !! k)
  | _ => JUndefined
  end.

(** [s === v] for a string [s]. *)
Definition strictEqStr (s : string) (v : JsValue) : bool :=
  match v with
  | JStr t => String.eqb s t
  | _ => false
  end.

(** [!s] is true for the empty string only. *)
Definition emptyStr (s : string) : bool := String.eqb s "".

(** Decimal rendering of a non-negative integer, as in a template literal. *)
Definition natToString (n : nat) : string := NilEmpty.string_of_uint (Nat.to_uint n).

(** [line.slice(n)] *)
Fixpoint slice (n : nat) (s : string) : string :=
  match n, s with
  | O, _ => s
  | S n', String _ s' => slice n' s'
  | S _, EmptyString => EmptyString
  end.

(** [line.startsWith(p)] *)
Definition startsWith (p line : string) : bool := String.prefix p line.

Definition newline : ascii := "010"%char.

(** [s.split('\n')]: the pieces between newlines, never an empty array. *)
Fixpoint split_newline (s : string) : list string :=
  match s with
  | EmptyString => [EmptyString]
  | String c s' =>
      if Ascii.eqb c newline then EmptyString :: split_newline s'
      else match split_newline s' with
           | [] => [String c EmptyString]
           | l :: ls => String c l :: ls
           end
  end.

(** [lines.pop()]: the last element (if any) and the array without it. *)
Definition pop (lines : list string) : option string * list string :=
  (last lines, removelast lines).

(* ===================================================================== *)
(** ** What the browser provides *)
(* ===================================================================== *)

(** The platform routines the page calls. [toLocaleTimeString n] is the n-th
    reading of the wall clock; the UTF-8 [TextDecoder] in streaming mode is
    a byte-by-byte transducer that keeps its state between calls. *)
Class Runtime := {
  Number_toString : float → string;
  toLocaleTimeString : nat → string;
  JSON_parse : string → option JsValue;
  DecoderState : Type;
  TextDecoder_new : DecoderState;
  TextDecoder_step : DecoderState → Byte.byte → DecoderState * string;
}.

(* ===================================================================== *)
(** ** Page state *)
(* ===================================================================== *)

Inductive Icon := IconBrain | IconBeaker | IconZap | IconClipboardList | IconShieldCheck.

Record AgentStatus := {
  icon : Icon;
  name : string;
  status : JsValue;
  color : string;
}.

Record LogEntry := {
  time : string;
  message : string;
}.

(** The [useState] cells of [DiscoverPage]. *)
Record PageState := {
  prompt : string;
  isRunning : bool;
  logs : list LogEntry;
  chartData : JsValue;
  finalCandidate : JsValue;
  objectives : list string;
  openaiApiKey : string;
  googleApiKey : string;
  mpApiKey : string;
  retryCount : nat;
  hasError : bool;
  agents : list AgentStatus;
}.

Definition initialAgents : list AgentStatus :=
  [ {| icon := IconBrain; name := "Epimetheus"; status := JStr "idle"; color := "blue" |};
    {| icon := IconBeaker; name := "Athena"; status := JStr "idle"; color := "purple" |};
    {| icon := IconZap; name := "Hermes"; status := JStr "idle"; color := "yellow" |};
    {| icon := IconClipboardList; name := "Hephaestus"; status := JStr "idle"; color := "green" |};
    {| icon := IconShieldCheck; name := "Cassandra"; status := JStr "idle"; color := "red" |} ].

(** The state of the first render. *)
Definition initialPage : PageState :=
  {| prompt := "Find stable ternary oxides with a high band gap and low formation energy per atom.";
     isRunning := false; logs := []; chartData := JArr []; finalCandidate := JNull;
     objectives := []; openaiApiKey := ""; googleApiKey := ""; mpApiKey := "";
     retryCount := 0; hasError := false; agents := initialAgents |}.

(** What the page does to the outside. *)
Inductive Effect :=
  | Alert (msg : string)
  | Fetch (goal openai google mp : string)
  | ConsoleError (label : string).

(** The page state together with the trace of outside effects and the number
    of clock readings taken so far. *)
Record World := {
  page : PageState;
  effects : list Effect;
  ticks : nat;
}.

Definition Action := World → World.

Definition updPage (f : PageState → PageState) : Action :=
  fun w => {| page := f (page w); effects := effects w; ticks := ticks w |}.

Definition emit (e : Effect) : Action :=
  fun w => {| page := page w; effects := effects w ++ [e]; ticks := ticks w |}.

Definition setIsRunning (v : bool) : Action := updPage (fun p =>
  {| prompt := prompt p; isRunning := v; logs := logs p; chartData := chartData p;
     finalCandidate := finalCandidate p; objectives := objectives p;
     openaiApiKey := openaiApiKey p; googleApiKey := googleApiKey p; mpApiKey := mpApiKey p;
     retryCount := retryCount p; hasError := hasError p; agents := agents p |}).

Definition setLogs (f : list LogEntry → list LogEntry) : Action := updPage (fun p =>
  {| prompt := prompt p; isRunning := isRunning p; logs := f (logs p); chartData := chartData p;
     finalCandidate := finalCandidate p; objectives := objectives p;
     openaiApiKey := openaiApiKey p; googleApiKey := googleApiKey p; mpApiKey := mpApiKey p;
     retryCount := retryCount p; hasError := hasError p; agents := agents p |}).

Definition setChartData (v : JsValue) : Action := updPage (fun p =>
  {| prompt := prompt p; isRunning := isRunning p; logs := logs p; chartData := v;
     finalCandidate := finalCandidate p; objectives := objectives p;
     openaiApiKey := openaiApiKey p; googleApiKey := googleApiKey p; mpApiKey := mpApiKey p;
     retryCount := retryCount p; hasError := hasError p; agents := agents p |}).

Definition setFinalCandidate (v : JsValue) : Action := updPage (fun p =>
  {| prompt := prompt p; isRunning := isRunning p; logs := logs p; chartData := chartData p;
     finalCandidate := v; objectives := objectives p;
     openaiApiKey := openaiApiKey p; googleApiKey := googleApiKey p; mpApiKey := mpApiKey p;
     retryCount := retryCount p; hasError := hasError p; agents := agents p |}).

Definition setObjectives (v : list string) : Action := updPage (fun p =>
  {| prompt := prompt p; isRunning := isRunning p; logs := logs p; chartData := chartData p;
     finalCandidate := finalCandidate p; objectives := v;
     openaiApiKey := openaiApiKey p; googleApiKey := googleApiKey p; mpApiKey := mpApiKey p;
     retryCount := retryCount p; hasError := hasError p; agents := agents p |}).

Definition setRetryCount (f : nat → nat) : Action := updPage (fun p =>
  {| prompt := prompt p; isRunning := isRunning p; logs := logs p; chartData := chartData p;
     finalCandidate := finalCandidate p; objectives := objectives p;
     openaiApiKey := openaiApiKey p; googleApiKey := googleApiKey p; mpApiKey := mpApiKey p;
     retryCount := f (retryCount p); hasError := hasError p; agents := agents p |}).

Definition setHasError (v : bool) : Action := updPage (fun p =>
  {| prompt := prompt p; isRunning := isRunning p; logs := logs p; chartData := chartData p;
     finalCandidate := finalCandidate p; objectives := objectives p;
     openaiApiKey := openaiApiKey p; googleApiKey := googleApiKey p; mpApiKey := mpApiKey p;
     retryCount := retryCount p; hasError := v; agents := agents p |}).

Definition setAgents (f : list AgentStatus → list AgentStatus) : Action := updPage (fun p =>
  {| prompt := prompt p; isRunning := isRunning p; logs := logs p; chartData := chartData p;
     finalCandidate := finalCandidate p; objectives := objectives p;
     openaiApiKey := openaiApiKey p; googleApiKey := googleApiKey p; mpApiKey := mpApiKey p;
     retryCount := retryCount p; hasError := hasError p; agents := f (agents p) |}).

(** [a1 >>> a2]: do [a1], then [a2]. *)
Definition andThen (a1 a2 : Action) : Action := fun w => a2 (a1 w).
Notation "a1 >>> a2" := (andThen a1 a2) (at level 65, right associativity).

Definition skip : Action := fun w => w.

(* ===================================================================== *)
(** ** The handlers of the discover page *)
(* ===================================================================== *)

(** What a template literal makes of a value, or [None] when the conversion
    throws a TypeError: an array is joined with commas, its null and
    undefined elements counting as empty; an object parsed from JSON gives
    the text of [Object.prototype.toString], unless an own property named
    toString hides that method (a JSON value is never callable, and
    [valueOf] does not return a primitive). *)
Fixpoint ToString `{RT : Runtime} (v : JsValue) : option string :=
  match v with
  | JUndefined => Some "undefined"
  | JNull => Some "null"
  | JBool true => Some "true"
  | JBool false => Some "false"
  | JNum x => Some (Number_toString x)
  | JStr s => Some s
  | JArr l =>
      String.concat "," <$>
        (fix join (l : list JsValue) : option (list string) :=
           match l with
           | [] => Some []
           | e :: l' =>
               match match e with JUndefined | JNull => Some "" | _ => ToString e end with
               | Some s => cons s <$> join l'
               | None => None
               end
           end) l
  | JObj fields =>
      match fields !! "toString" with
      | Some _ => None
      | None => Some "[object Object]"
      end
  end.

(** How a call ends: normally, or by throwing, each with the world it leaves. *)
Inductive Outcome :=
  | Normal (w : World)
  | Thrown (w : World).

(** How the body of a response ends: the reader reports done, or a read fails. *)
Inductive StreamEnd := EndOfStream | ReadFailure.

(** The chunks [reader.read()] delivers, in order, and how the stream ends. *)
Record Body := {
  chunks : list (list Byte.byte);
  ending : StreamEnd;
}.

(** What [fetch] comes back with. *)
Inductive Response :=
  | FetchRejected
  | HttpNotOk (httpStatus : nat)
  | NoBodyReader
  | Streaming (body : Body).

Section Page.
Context `{RT : Runtime}.

(** [decoder.decode(value, { stream: true })] from decoder state [st]. *)
Definition TextDecoder_decode (st : DecoderState) (value : list Byte.byte)
    : DecoderState * string :=
  foldl (fun acc b => let '(st', s) := TextDecoder_step acc.1 b in (st', acc.2 +:+ s))
        (st, "") value.

(** The local variables [decoder] and [buffer] of [handleDiscovery]. *)
Record Locals := {
  decoder : DecoderState;
  buffer : string;
}.

Definition addLog (message : string) : Action := fun w =>
  let timestamp := toLocaleTimeString (ticks w) in
  setLogs (fun prev => prev ++ [ {| time := timestamp; message := message |} ])
    {| page := page w; effects := effects w; ticks := S (ticks w) |}.

(** Code that may throw. *)
Definition Prog := World → Outcome.

Definition run (a : Action) : Prog := fun w => Normal (a w).

Definition throw : Prog := fun w => Thrown w.

(** [p1 >>- p2]: do [p1] and, unless it throws, [p2]. *)
Definition thenDo (p1 p2 : Prog) : Prog := fun w =>
  match p1 w with
  | Normal w' => p2 w'
  | Thrown w' => Thrown w'
  end.
Notation "p1 >>- p2" := (thenDo p1 p2) (at level 65, right associativity).

(** [if (b) p] *)
Definition whenP (b : bool) (p : Prog) : Prog := if b then p else run skip.

(** [addLog] of a template literal, which is evaluated first and may throw. *)
Definition addLogTemplate (message : option string) : Prog :=
  match message with
  | Some m => run (addLog m)
  | None => throw
  end.

Definition handleStreamData (data : JsValue) : Prog :=
  match data with
  | JUndefined | JNull => throw
  | _ =>
      whenP (truthy (getProp data "agent"))
        (run (setAgents
                (map (fun a =>
                        if strictEqStr (name a) (getProp data "agent")
                        then {| icon := icon a; name := name a;
                                status := getProp data "status"; color := color a |}
                        else a))) >>-
         whenP (truthy (getProp data "log"))
           (addLogTemplate
              (agent ← ToString (getProp data "agent");
               log ← ToString (getProp data "log");
               Some (agent +:+ ": " +:+ log)))) >>-
      whenP (truthy (getProp data "pareto_front"))
        (run (setChartData (getProp data "pareto_front"))) >>-
      whenP (truthy (getProp data "final_candidate"))
        (run (setFinalCandidate (getProp data "final_candidate")) >>-
         whenP (truthy (getProp data "log"))
           (addLogTemplate
              (log ← ToString (getProp data "log"); Some ("System: " +:+ log))) >>-
         run (setIsRunning false))
  end.

(** The inner [catch] of [processStream]. *)
Definition parseFailed : Action :=
  emit (ConsoleError "JSON parse error:") >>>
  addLog "System: Error parsing server response.".

(** The outer [catch] of [processStream]. *)
Definition streamFailed : Action :=
  emit (ConsoleError "Stream processing error:") >>>
  addLog "System: An error occurred while processing the stream. Please try again." >>>
  setHasError true >>>
  setIsRunning false.

(** What [processStream] does once the reads are over. *)
Definition finish (e : StreamEnd) : Action :=
  match e with EndOfStream => skip | ReadFailure => streamFailed end.

Section Decoder.
(** The decoder is written over the handler it delivers to; the page
    delivers to [handleStreamData]. *)
Variable handler : JsValue → World → Outcome.

(** [try { handler(data) } catch { ... }] *)
Definition tryHandle (data : JsValue) : Action := fun w =>
  match handler data w with
  | Normal w' => w'
  | Thrown w' => parseFailed w'
  end.

(** The body of [for (const line of lines)]. *)
Definition processLine (line : string) : Action :=
  if startsWith "data: " line then
    match JSON_parse (slice 6 line) with
    | Some data => tryHandle data
    | None => parseFailed
    end
  else skip.

Definition forLines (lines : list string) : Action := fun w =>
  foldl (fun w' line => processLine line w') w lines.

(** One turn of the [while] loop after a read that delivered [value]. *)
Definition processChunk (value : list Byte.byte) (loc : Locals) (w : World)
    : Locals * World :=
  let '(st, text) := TextDecoder_decode (decoder loc) value in
  let buffer1 := buffer loc +:+ text in
  let '(lastLine, lines) := pop (split_newline buffer1) in
  ({| decoder := st; buffer := default "" lastLine |}, forLines lines w).

Fixpoint readLoop (reads : list (list Byte.byte)) (e : StreamEnd)
    (loc : Locals) (w : World) : World :=
  match reads with
  | [] => match e with EndOfStream => w | ReadFailure => streamFailed w end
  | value :: rest =>
      let '(loc', w') := processChunk value loc w in readLoop rest e loc' w'
  end.

Definition processStreamWith (body : Body) : Action :=
  readLoop (chunks body) (ending body) {| decoder := TextDecoder_new; buffer := "" |}.

End Decoder.

Definition processStream : Body → Action := processStreamWith handleStreamData.

(** Lines 111 to 118 of the page: the state a new session starts from. *)
Definition startSession : Action :=
  setIsRunning true >>>
  setLogs (fun _ => []) >>>
  setChartData (JArr []) >>>
  setFinalCandidate JNull >>>
  setAgents (fun _ => initialAgents) >>>
  setObjectives [] >>>
  setHasError false >>>
  setRetryCount (fun _ => 0).

(** Lines 121 to 131: the request, with the goal and the keys of the render. *)
Definition requestDiscover (snap : PageState) : Action :=
  emit (Fetch (prompt snap) (openaiApiKey snap) (googleApiKey snap) (mpApiKey snap)).

(** Lines 133 to 196: what the page does with what [fetch] comes back with.
    A rejected [fetch] is not caught: nothing more happens. *)
Definition consumeResponse (resp : Response) : Action :=
  match resp with
  | FetchRejected => skip
  | HttpNotOk httpStatus =>
      setHasError true >>>
      addLog ("System: HTTP error! status: " +:+ natToString httpStatus +:+
              ". Please check your API keys and try again.") >>>
      setIsRunning false
  | NoBodyReader =>
      setHasError true >>>
      addLog "System: No response body reader available. Please try again." >>>
      setIsRunning false
  | Streaming body => processStream body
  end.

(** [handleDiscovery] as created by the render whose state is [snap]; [resp]
    is what the request comes back with, should one be issued. *)
Definition handleDiscovery (snap : PageState) (resp : Response) : Action :=
  if emptyStr (mpApiKey snap) || (emptyStr (openaiApiKey snap) && emptyStr (googleApiKey snap))
  then
    emit (Alert "Please enter Materials Project API key and at least one LLM API key (OpenAI or Google).")
  else
    startSession >>> requestDiscover snap >>> consumeResponse resp.

(** [handleRetry] as created by the render whose state is [snap]. *)
Definition handleRetry (snap : PageState) (resp : Response) : Action :=
  if retryCount snap <? 3 then
    setRetryCount (fun prev => prev + 1) >>>
    addLog ("System: Retry attempt " +:+ natToString (retryCount snap + 1) +:+ "/3...") >>>
    handleDiscovery snap resp
  else
    addLog "System: Maximum retry attempts reached. Please check your configuration and try again later.".

(** The Retry button is rendered when [hasError] and is disabled when
    [retryCount >= 3 || isRunning]. *)
Definition retryButtonEnabled (p : PageState) : bool :=
  hasError p && negb (3 <=? retryCount p) && negb (isRunning p).

(** The state in which a failed session leaves a page that has its keys:
    the Retry button is enabled and the count is zero. *)
Definition retryReady (p : PageState) : Prop :=
  mpApiKey p ≠ "" ∧ (openaiApiKey p ≠ "" ∨ googleApiKey p ≠ "") ∧
  hasError p = true ∧ isRunning p = false ∧ retryCount p = 0.

(** A click on Retry, on the state last rendered. *)
Definition clickRetry (resp : Response) : Action := fun w =>
  if retryButtonEnabled (page w) then handleRetry (page w) resp w else w.

(** One Retry click per response, each after the previous session is over. *)
Definition retryClicks (resps : list Response) : Action := fun w =>
  foldl (fun w' resp => clickRetry resp w') w resps.

(** The number of requests in a trace of effects. *)
Definition isFetch (e : Effect) : bool :=
  match e with Fetch _ _ _ _ => true | _ => false end.

Definition countFetch (es : list Effect) : nat := length (List.filter isFetch es).

End Page.

(* ===================================================================== *)
(** ** Reading a text line by line *)
(* ===================================================================== *)

(** The lines of a text that are closed by a newline, and what follows the
    last newline: what the decoder has dispatched, and what it still holds
    in [buffer], once it has seen the whole text. *)
Definition completeLines (text : string) : list string := removelast (split_newline text).
Definition remainder (text : string) : string := default "" (last (split_newline text)).

Fixpoint hasNewline (s : string) : bool :=
  match s with
  | EmptyString => false
  | String c s' => Ascii.eqb c newline || hasNewline s'
  end.

(** A text that is empty or ends with a newline. *)
Definition endsAtLineBreak (text : string) : bool := String.eqb (remainder text) "".

(* ===================================================================== *)
(** ** The server side of the event stream *)
(* ===================================================================== *)

Section Encoder.
Context `{RT : Runtime}.
(** The JSON serializer of the server. *)
Variable JSON_stringify : JsValue → string.

(** Modelled from the spec: the encoder of the orchestrator's events, which
    is backend code; each event becomes one record, the text data-colon-space,
    then the JSON of the event, then two newlines. *)
Definition encodeEvent (e : JsValue) : string :=
  "data: " +:+ JSON_stringify e +:+ String newline (String newline "").

(** Modelled from the spec: the text of a session, its records in order. *)
Definition encodeStream (events : list JsValue) : string :=
  foldr (fun e rest => encodeEvent e +:+ rest) "" events.

(** An event the two JSON libraries agree on: its text has no raw newline
    and the browser parses it back to the event. *)
Definition wellFormed (e : JsValue) : Prop :=
  hasNewline (JSON_stringify e) = false ∧ JSON_parse (JSON_stringify e) = Some e.

(** The line data-colon-space and [junk], closed by a newline: a malformed
    record when the browser does not accept [junk] as JSON. *)
Definition malformedRecord (junk : string) : string :=
  "data: " +:+ junk +:+ String newline "".

End Encoder.

(* ===================================================================== *)
(** ** The dominance engine *)
(* ===================================================================== *)

Module DominanceEngine.

(** Modelled from the spec: the data model of section 3, the engine being
    backend code. Property values are rationals. *)
Inductive Direction := Maximize | Minimize.

Record Objective := {
  property : string;
  direction : Direction;
}.

Record Candidate := {
  id : string;
  formula : string;
  properties : gmap string Q;
}.

(** Modelled from the spec: the engine is backend code. A candidate is
    eligible when it has a value for the property of every objective. *)
Definition eligible (objectives : list Objective) (c : Candidate) : bool :=
  forallb (fun o => bool_decide (is_Some (properties c !! property o))) objectives.

(** Modelled from the spec: [a] is at least as good as [b] on objective [o]. *)
Definition atLeastAsGood (o : Objective) (a b : Candidate) : bool :=
  match properties a !! property o, properties b !! property o with
  | Some x, Some y =>
      match direction o with
      | Maximize => Qle_bool y x
      | Minimize => Qle_bool x y
      end
  | _, _ => false
  end.

(** Modelled from the spec: [a] is strictly better than [b] on objective [o]. *)
Definition strictlyBetter (o : Objective) (a b : Candidate) : bool :=
  match properties a !! property o, properties b !! property o with
  | Some x, Some y =>
      match direction o with
      | Maximize => negb (Qle_bool x y)
      | Minimize => negb (Qle_bool y x)
      end
  | _, _ => false
  end.

(** Modelled from the spec: the Pareto dominance rule. *)
Definition dominates (objectives : list Objective) (a b : Candidate) : bool :=
  forallb (fun o => atLeastAsGood o a b) objectives &&
  existsb (fun o => strictlyBetter o a b) objectives.

(** Modelled from the spec: the tie-break, the member with the smallest id
    in the lexicographic order of strings. *)
Definition best (front : list Candidate) : option Candidate :=
  foldl (fun acc c =>
           match acc with
           | None => Some c
           | Some m => if String.ltb (id c) (id m) then Some c else Some m
           end) None front.

(** Modelled from the spec: [computeFront], by pairwise comparison over the
    eligible candidates. *)
Definition computeFront (candidates : list Candidate) (objectives : list Objective)
    : list Candidate * option Candidate :=
  let eligibles := List.filter (eligible objectives) candidates in
  let front :=
    List.filter (fun c => negb (existsb (fun d => dominates objectives d c) eligibles))
      eligibles in
  (front, best front).

End DominanceEngine.

(* ===================================================================== *)
(** ** A small runtime and a sample session *)
(* ===================================================================== *)

Module Sample.

Definition dq : string := String "034"%char "".
Definition quoted (s : string) : string := dq +:+ s +:+ dq.
Definition field (k v : string) : string := quoted k +:+ ":" +:+ v.

Definition thinking : JsValue :=
  JObj {[ "agent" := JStr "Athena"; "status" := JStr "thinking";
          "log" := JStr "Planning the query" ]}.
Definition thinkingText : string :=
  "{" +:+ field "agent" (quoted "Athena") +:+ "," +:+ field "status" (quoted "thinking")
      +:+ "," +:+ field "log" (quoted "Planning the query") +:+ "}".

Definition front : JsValue :=
  JObj {[ "pareto_front" :=
            JArr [ JObj {[ "formula_pretty" := JStr "TiO2"; "band_gap" := JNum 3%float ]} ] ]}.
Definition frontText : string :=
  "{" +:+ field "pareto_front"
            ("[{" +:+ field "formula_pretty" (quoted "TiO2") +:+ "," +:+ field "band_gap" "3"
                  +:+ "}]") +:+ "}".

Definition final : JsValue :=
  JObj {[ "final_candidate" :=
            JObj {[ "formula" := JStr "TiO2";
                    "properties" := JObj {[ "band_gap" := JNum 3%float ]} ]};
          "log" := JStr "Discovery complete" ]}.
Definition finalText : string :=
  "{" +:+ field "final_candidate"
            ("{" +:+ field "formula" (quoted "TiO2") +:+ "," +:+
                     field "properties" ("{" +:+ field "band_gap" "3" +:+ "}") +:+ "}")
      +:+ "," +:+ field "log" (quoted "Discovery complete") +:+ "}".

(** The three sample events and their JSON texts. *)
Definition table : list (string * JsValue) :=
  [ (thinkingText, thinking); (frontText, front); (finalText, final) ].

(** A parser that knows the sample texts (and [null]) and rejects the rest. *)
Definition parse (s : string) : option JsValue :=
  if String.eqb s "null" then Some JNull
  else snd <$> List.find (fun kv => String.eqb (fst kv) s) table.

(** The serializer of the sample events. *)
Definition stringify (e : JsValue) : string :=
  if truthy (getProp e "agent") then thinkingText
  else if truthy (getProp e "pareto_front") then frontText
  else if truthy (getProp e "final_candidate") then finalText
  else "null".

(** A runtime for ASCII streams: the decoder hands every byte on as one
    character; the clock shows the number of the reading. *)
Definition runtime : Runtime :=
  {| Number_toString := fun _ => "3";
     toLocaleTimeString := fun n => natToString n;
     JSON_parse := parse;
     DecoderState := unit;
     TextDecoder_new := tt;
     TextDecoder_step := fun _ b => (tt, String (ascii_of_byte b) "") |}.

Definition bytes (s : string) : list Byte.byte := list_byte_of_string s.

(** The sample session on the wire, and one way to cut it: in the middle of
    the prefix of the first record and again three bytes later. *)
Definition wire : list Byte.byte := bytes (encodeStream stringify [thinking; front; final]).
Definition cut (bs : list Byte.byte) : list (list Byte.byte) :=
  [take 3 bs; take 20 (drop 3 bs); drop 23 bs].

(** A page with the three keys entered. *)
Definition readyPage : PageState :=
  {| prompt := prompt initialPage; isRunning := false; logs := []; chartData := JArr [];
     finalCandidate := JNull; objectives := [];
     openaiApiKey := ""; googleApiKey := "AIza"; mpApiKey := "mp-key";
     retryCount := 0; hasError := false; agents := initialAgents |}.

Definition world (p : PageState) : World := {| page := p; effects := []; ticks := 0 |}.

(** The page after a session that failed: the Retry button is shown. *)
Definition failedPage : PageState :=
  {| prompt := prompt initialPage; isRunning := false; logs := []; chartData := JArr [];
     finalCandidate := JNull; objectives := [];
     openaiApiKey := ""; googleApiKey := "AIza"; mpApiKey := "mp-key";
     retryCount := 0; hasError := true; agents := initialAgents |}.

(** The scenario of the specification. *)
Definition scenarioObjectives : list DominanceEngine.Objective :=
  [ {| DominanceEngine.property := "band_gap"; DominanceEngine.direction := DominanceEngine.Maximize |};
    {| DominanceEngine.property := "formation_energy_per_atom";
       DominanceEngine.direction := DominanceEngine.Minimize |} ].

Definition candidate (i : string) (gap energy : Q) : DominanceEngine.Candidate :=
  {| DominanceEngine.id := i; DominanceEngine.formula := i;
     DominanceEngine.properties :=
       {[ "band_gap" := gap; "formation_energy_per_atom" := energy ]} |}.

Definition candA := candidate "A" (21 # 10) (- (5 # 10)).
Definition candB := candidate "B" (18 # 10) (- (9 # 10)).
Definition candC := candidate "C" (1 # 1) (- (1 # 10)).

End Sample.

(* ===================================================================== *)
(** ** The rest of the discover page: inputs, axes, cards, tooltip *)
(* ===================================================================== *)

(** [setPrompt] and the setters of the three key fields. *)
Definition setPrompt (v : string) : Action := updPage (fun p =>
  {| prompt := v; isRunning := isRunning p; logs := logs p; chartData := chartData p;
     finalCandidate := finalCandidate p; objectives := objectives p;
     openaiApiKey := openaiApiKey p; googleApiKey := googleApiKey p; mpApiKey := mpApiKey p;
     retryCount := retryCount p; hasError := hasError p; agents := agents p |}).

Definition setOpenaiApiKey (v : string) : Action := updPage (fun p =>
  {| prompt := prompt p; isRunning := isRunning p; logs := logs p; chartData := chartData p;
     finalCandidate := finalCandidate p; objectives := objectives p;
     openaiApiKey := v; googleApiKey := googleApiKey p; mpApiKey := mpApiKey p;
     retryCount := retryCount p; hasError := hasError p; agents := agents p |}).

Definition setGoogleApiKey (v : string) : Action := updPage (fun p =>
  {| prompt := prompt p; isRunning := isRunning p; logs := logs p; chartData := chartData p;
     finalCandidate := finalCandidate p; objectives := objectives p;
     openaiApiKey := openaiApiKey p; googleApiKey := v; mpApiKey := mpApiKey p;
     retryCount := retryCount p; hasError := hasError p; agents := agents p |}).

Definition setMpApiKey (v : string) : Action := updPage (fun p =>
  {| prompt := prompt p; isRunning := isRunning p; logs := logs p; chartData := chartData p;
     finalCandidate := finalCandidate p; objectives := objectives p;
     openaiApiKey := openaiApiKey p; googleApiKey := googleApiKey p; mpApiKey := v;
     retryCount := retryCount p; hasError := hasError p; agents := agents p |}).

(** [s.split(sep)] for a separator of one character. *)
Fixpoint split_on (sep : ascii) (s : string) : list string :=
  match s with
  | EmptyString => [EmptyString]
  | String c s' =>
      if Ascii.eqb c sep then EmptyString :: split_on sep s'
      else match split_on sep s' with
           | [] => [String c EmptyString]
           | l :: ls => String c l :: ls
           end
  end.

Fixpoint hasChar (x : ascii) (s : string) : bool :=
  match s with
  | EmptyString => false
  | String c s' => Ascii.eqb c x || hasChar x s'
  end.

(** [s.replace(/_/g, ' ')] *)
Fixpoint replaceUnderscores (s : string) : string :=
  match s with
  | EmptyString => EmptyString
  | String c s' => String (if Ascii.eqb c "_" then " "%char else c) (replaceUnderscores s')
  end.

(** The class [\w] of a regular expression: ASCII letters, digits, underscore. *)
Definition isWordChar (c : ascii) : bool :=
  let n := nat_of_ascii c in
  ((48 <=? n) && (n <=? 57)) || ((65 <=? n) && (n <=? 90)) ||
  ((97 <=? n) && (n <=? 122)) || (n =? 95).

(** [l.toUpperCase()] for one character of the class [\w]. *)
Definition toUpperCase (c : ascii) : ascii :=
  let n := nat_of_ascii c in
  if (97 <=? n) && (n <=? 122) then ascii_of_nat (n - 32) else c.

(** [s.replace(/\b\w/g, l => l.toUpperCase())]: a word character that does
    not follow a word character is put in upper case; [afterWord] tells
    whether the character before [s] is a word character. *)
Fixpoint capitalizeWords (afterWord : bool) (s : string) : string :=
  match s with
  | EmptyString => EmptyString
  | String c s' =>
      String (if isWordChar c && negb afterWord then toUpperCase c else c)
             (capitalizeWords (isWordChar c) s')
  end.

Module Axis.
(** What [getAxisProps] returns. *)
Record Props := {
  dataKey : string;
  name : string;
}.
End Axis.

(** [getAxisProps(index)] on the objectives of the page, or [None] when it
    throws: an objective without a space has no second word, and
    [name.replace] of [undefined] is a TypeError. *)
Definition getAxisProps (objectives : list string) (index : nat) : option Axis.Props :=
  if index <? length objectives then
    match objectives !! index with
    | Some objective =>
        let parts := split_on " " objective in
        let action := default "" (parts !! 0) in
        match parts !! 1 with
        | Some name =>
            Some {| Axis.dataKey := name;
                    Axis.name := capitalizeWords false (replaceUnderscores name) +:+
                                 " (" +:+ action +:+ ")" |}
        | None => None
        end
    | None => None
    end
  else Some {| Axis.dataKey := "x"; Axis.name := "Objective 1" |}.

(** What [AgentStatusCard] shows: the class of the icon, the name, the
    status text, and whether the spinner and the check mark are there. *)
Record CardView := {
  iconClass : string;
  cardIcon : Icon;
  cardName : string;
  statusText : string;
  spinner : bool;
  checkMark : bool;
}.

(** [AgentStatusCard({ agent })], or [None] when it throws: only a string
    has the method [replace] (a property named replace of a parsed object
    is not callable). *)
Definition AgentStatusCard (agent : AgentStatus) : option CardView :=
  match status agent with
  | JStr s =>
      Some {| iconClass := "text-" +:+ color agent +:+ "-400";
              cardIcon := icon agent;
              cardName := name agent;
              statusText := replaceUnderscores s;
              spinner := strictEqStr "thinking" (status agent);
              checkMark := strictEqStr "success" (status agent) |}
  | _ => None
  end.

(** The cards of the Agent Workflow panel, [agents.map(...)]: [None] when
    one of them throws. *)
Definition agentCards (p : PageState) : option (list CardView) :=
  mapM AgentStatusCard (agents p).

Section Tooltip.
(** [x.toFixed(3)] *)
Variable Number_toFixed3 : float → string.

(** What [CustomTooltip] shows: the formula and one row per numeric field,
    each under its React key. *)
Record TooltipView := {
  tooltipTitle : JsValue;
  tooltipRows : gmap string string;
}.

(** Whether [payload.length] counts as true. *)
Definition lengthTruthy (payload : JsValue) : bool :=
  match payload with
  | JArr l => negb (Nat.eqb (length l) 0)
  | JStr s => negb (emptyStr s)
  | JObj fields => truthy (default JUndefined (fields !! "length"))
  | _ => false
  end.

(** The rows of [Object.keys(data).map(...)]: the keys other than
    formula_pretty whose value is a number. The keys of an array are its
    indices; a string has only characters under its keys, and a number or
    a boolean has no keys. *)
Definition tooltipRowsOf (data : JsValue) : gmap string string :=
  match data with
  | JObj fields =>
      map_imap (fun key v =>
                  if String.eqb key "formula_pretty" then None
                  else match v with
                       | JNum x => Some (replaceUnderscores key +:+ ": " +:+ Number_toFixed3 x)
                       | _ => None
                       end) fields
  | JArr l =>
      list_to_map
        (omap (fun iv =>
                 match iv.2 with
                 | JNum x => Some (natToString iv.1,
                                   replaceUnderscores (natToString iv.1) +:+ ": " +:+
                                   Number_toFixed3 x)
                 | _ => None
                 end) (imap (fun i v => (i, v)) l))
  | _ => ∅
  end.

(** [CustomTooltip({ active, payload })]: [None] when it throws, [Some None]
    when it returns null. *)
Definition CustomTooltip (active payload : JsValue) : option (option TooltipView) :=
  if truthy active && truthy payload && lengthTruthy payload then
    match getProp payload "payload" with
    | JUndefined | JNull => None
    | data =>
        Some (Some {| tooltipTitle := getProp data "formula_pretty";
                      tooltipRows := tooltipRowsOf data |})
    end
  else Some None.

End Tooltip.

Section Browsing.
Context `{RT : Runtime}.

(** What the user can do on the page; a click on Start or Retry comes with
    what the request will be answered with. The goal cannot be edited and
    Start cannot be clicked while the page is running. *)
Inductive UserEvent :=
  | EditPrompt (v : string)
  | EditOpenaiApiKey (v : string)
  | EditGoogleApiKey (v : string)
  | EditMpApiKey (v : string)
  | ClickStart (resp : Response)
  | ClickRetry (resp : Response).

Definition userEvent (ev : UserEvent) : Action := fun w =>
  match ev with
  | EditPrompt v => if isRunning (page w) then w else setPrompt v w
  | EditOpenaiApiKey v => setOpenaiApiKey v w
  | EditGoogleApiKey v => setGoogleApiKey v w
  | EditMpApiKey v => setMpApiKey v w
  | ClickStart resp => if isRunning (page w) then w else handleDiscovery (page w) resp w
  | ClickRetry resp => clickRetry resp w
  end.

(** The page after a sequence of user events, from the first render; each
    session is run to the end of its response before the next event. *)
Definition browse (evs : list UserEvent) : World :=
  foldl (fun w ev => userEvent ev w) {| page := initialPage; effects := []; ticks := 0 |} evs.

(** What stays of an agent whatever its status. *)
Definition agentIdentity (a : AgentStatus) : Icon * string * string :=
  (icon a, name a, color a).

(** What no part of a session changes between two worlds: the goal, the
    keys, the objectives, who the agents are; and what only grows: the log,
    the trace of effects, the clock readings. *)
Definition keepsSession (w w' : World) : Prop :=
  prompt (page w') = prompt (page w) ∧
  openaiApiKey (page w') = openaiApiKey (page w) ∧
  googleApiKey (page w') = googleApiKey (page w) ∧
  mpApiKey (page w') = mpApiKey (page w) ∧
  objectives (page w') = objectives (page w) ∧
  map agentIdentity (agents (page w')) = map agentIdentity (agents (page w)) ∧
  logs (page w) `prefix_of` logs (page w') ∧
  effects w `prefix_of` effects w' ∧
  ticks w ≤ ticks w'.

(** What, in addition, handling a line leaves alone: the retry count and
    the error flag; and the page is never set running. *)
Definition quietStep (w w' : World) : Prop :=
  keepsSession w w' ∧
  retryCount (page w') = retryCount (page w) ∧
  hasError (page w') = hasError (page w) ∧
  (isRunning (page w) = false → isRunning (page w') = false).

(** The locals of [processStream] after the reads, the part of the loop
    that [readLoop] does not return. *)
Fixpoint localsAfter (handler : JsValue → World → Outcome)
    (reads : list (list Byte.byte)) (loc : Locals) (w : World) : Locals :=
  match reads with
  | [] => loc
  | value :: rest =>
      let '(loc', w') := processChunk handler value loc w in localsAfter handler rest loc' w'
  end.

(** A response that tells the page that the session failed. *)
Definition failedResponse (resp : Response) : bool :=
  match resp with
  | FetchRejected => false
  | HttpNotOk _ => true
  | NoBodyReader => true
  | Streaming body => match ending body with ReadFailure => true | EndOfStream => false end
  end.

(** A line that carries a terminal event. *)
Definition terminalLine (line : string) : bool :=
  startsWith "data: " line &&
  match JSON_parse (slice 6 line) with
  | Some data => truthy (getProp data "final_candidate")
  | None => false
  end.

(** A line whose event, if it names an agent, gives it a status that is a
    string. *)
Definition typedStatusLine (line : string) : bool :=
  negb (startsWith "data: " line) ||
  match JSON_parse (slice 6 line) with
  | Some data =>
      negb (truthy (getProp data "agent")) ||
      match getProp data "status" with JStr _ => true | _ => false end
  | None => true
  end.

(** What holds of the page whenever the user can act on it. *)
Definition pageInvariant (p : PageState) : Prop :=
  objectives p = [] ∧
  retryCount p ≤ 3 ∧
  map agentIdentity (agents p) = map agentIdentity initialAgents ∧
  (isRunning p = true → hasError p = false) ∧
  (0 < retryCount p → hasError p = true ∧ isRunning p = false).

Definition countAlert (es : list Effect) : nat :=
  length (List.filter (fun e => match e with Alert _ => true | _ => false end) es).

End Browsing.

Module More.

(** A final record that the server does not close with a newline. *)
Definition openEnded : list Byte.byte :=
  Sample.bytes (encodeStream Sample.stringify [Sample.thinking] +:+
                "data: " +:+ Sample.finalText).

(** A status event without a status. *)
Definition statusless : JsValue := JObj {[ "agent" := JStr "Athena" ]}.

(** A page that failed and whose keys have been cleared since. *)
Definition keylessPage : PageState :=
  {| prompt := prompt initialPage; isRunning := false; logs := []; chartData := JArr [];
     finalCandidate := JNull; objectives := [];
     openaiApiKey := ""; googleApiKey := ""; mpApiKey := "";
     retryCount := 0; hasError := true; agents := initialAgents |}.

End More.

(* ===================================================================== *)
(** ** Facts about strings and line splitting *)
(* ===================================================================== *)

#[local] Arguments String.append !_ _ / : simpl nomatch.

Lemma append_assoc (a b c : string) : (a +:+ b) +:+ c = a +:+ (b +:+ c).
Proof. induction a as [|x a IH]; simpl; [done | by rewrite IH]. Qed.

Lemma append_empty_r (a : string) : a +:+ "" = a.
Proof. induction a as [|x a IH]; simpl; [done | by rewrite IH]. Qed.

Lemma split_newline_nonempty (s : string) : split_newline s ≠ [].
Proof.
  destruct s as [|c s]; simpl; [done |].
  destruct (Ascii.eqb c newline); [done |].
  by destruct (split_newline s).
Qed.

(** Splitting a concatenation: the complete lines of the first part, then
    the split of what the first part left open followed by the second. *)
Lemma split_newline_app (a b : string) :
  split_newline (a +:+ b) = completeLines a ++ split_newline (remainder a +:+ b).
Proof.
  unfold completeLines, remainder.
  induction a as [|c a IH]; simpl; [done |].
  destruct (Ascii.eqb c newline) eqn:Hc.
  - rewrite IH. pose proof (split_newline_nonempty a) as Hne.
    destruct (split_newline a) as [|l ls]; [done |]. done.
  - rewrite IH. pose proof (split_newline_nonempty a) as Hne.
    destruct (split_newline a) as [|l ls]; [done |].
    destruct ls as [|l2 ls]; simpl.
    + rewrite Hc. by destruct (split_newline (l +:+ b)).
    + done.
Qed.

Lemma completeLines_app (a b : string) :
  completeLines (a +:+ b) = completeLines a ++ completeLines (remainder a +:+ b).
Proof.
  unfold completeLines at 1. rewrite split_newline_app.
  by rewrite removelast_app by apply split_newline_nonempty.
Qed.

Lemma remainder_app (a b : string) : remainder (a +:+ b) = remainder (remainder a +:+ b).
Proof.
  unfold remainder at 1. rewrite split_newline_app, last_app.
  pose proof (split_newline_nonempty (remainder a +:+ b)) as Hne.
  unfold remainder at 2.
  destruct (last (split_newline (remainder a +:+ b))) eqn:Hl; [done |].
  by apply last_None in Hl.
Qed.

(** A line without a newline, closed by a newline, is the first piece. *)
Lemma split_newline_line (l rest : string) :
  hasNewline l = false →
  split_newline (l +:+ String newline rest) = l :: split_newline rest.
Proof.
  induction l as [|c l IH]; simpl; intros Hl; [done |].
  apply orb_false_iff in Hl as [Hc Hl]. rewrite Hc, IH by done. done.
Qed.

Lemma completeLines_line (l rest : string) :
  hasNewline l = false →
  completeLines (l +:+ String newline rest) = l :: completeLines rest.
Proof.
  intros Hl. unfold completeLines. rewrite split_newline_line by done.
  pose proof (split_newline_nonempty rest).
  simpl. by destruct (split_newline rest).
Qed.

Lemma remainder_line (l rest : string) :
  hasNewline l = false → remainder (l +:+ String newline rest) = remainder rest.
Proof.
  intros Hl. unfold remainder. rewrite split_newline_line by done.
  pose proof (split_newline_nonempty rest).
  by destruct (split_newline rest).
Qed.

Lemma hasNewline_app (a b : string) :
  hasNewline (a +:+ b) = hasNewline a || hasNewline b.
Proof. induction a as [|c a IH]; simpl; [done |]. by rewrite IH, orb_assoc. Qed.

(** After a text that ends at a line break, a second text is split on its own. *)
Lemma completeLines_aligned (a b : string) :
  endsAtLineBreak a = true →
  completeLines (a +:+ b) = completeLines a ++ completeLines b.
Proof.
  unfold endsAtLineBreak. intros Ha%String.eqb_eq.
  by rewrite completeLines_app, Ha.
Qed.

Lemma startsWith_data (s : string) : startsWith "data: " ("data: " +:+ s) = true.
Proof. unfold startsWith. simpl. by destruct s. Qed.

(* ===================================================================== *)
(** ** The decoder does not see the chunking *)
(* ===================================================================== *)

Section DecoderFacts.
Context `{RT : Runtime}.
Variable handler : JsValue → World → Outcome.

Lemma TextDecoder_decode_from (st : DecoderState) (out : string) (value : list Byte.byte) :
  foldl (fun acc b => let '(st', s) := TextDecoder_step acc.1 b in (st', acc.2 +:+ s))
        (st, out) value
  = ((TextDecoder_decode st value).1, out +:+ (TextDecoder_decode st value).2).
Proof.
  unfold TextDecoder_decode. revert st out.
  induction value as [|b value IH]; intros st out; simpl.
  - by rewrite append_empty_r.
  - destruct (TextDecoder_step st b) as [st1 s1] eqn:Hstep. simpl.
    rewrite (IH st1 (out +:+ s1)), (IH st1 s1). simpl.
    by rewrite append_assoc.
Qed.

(** Decoding two chunks one after the other gives the text of decoding them
    joined: the decoder carries what is incomplete in its state. *)
Lemma TextDecoder_decode_app (st : DecoderState) (v1 v2 : list Byte.byte) :
  TextDecoder_decode st (v1 ++ v2)
  = ((TextDecoder_decode (TextDecoder_decode st v1).1 v2).1,
     (TextDecoder_decode st v1).2 +:+ (TextDecoder_decode (TextDecoder_decode st v1).1 v2).2).
Proof.
  unfold TextDecoder_decode at 1. rewrite foldl_app.
  fold (TextDecoder_decode st v1).
  destruct (TextDecoder_decode st v1) as [st1 t1]. simpl.
  apply TextDecoder_decode_from.
Qed.

Lemma forLines_app (l1 l2 : list string) (w : World) :
  forLines handler (l1 ++ l2) w = forLines handler l2 (forLines handler l1 w).
Proof. unfold forLines. apply foldl_app. Qed.

Lemma split_newline_pieces (s : string) :
  Forall (fun l => hasNewline l = false) (split_newline s).
Proof.
  induction s as [|c s IH]; simpl; [by repeat constructor |].
  destruct (Ascii.eqb c newline) eqn:Hc; [by constructor |].
  destruct (split_newline s) as [|l ls]; [by repeat constructor; simpl; rewrite Hc |].
  inversion IH; subst. constructor; [simpl; by rewrite Hc | done].
Qed.

Lemma split_newline_one (s : string) : hasNewline s = false → split_newline s = [s].
Proof.
  induction s as [|c s IH]; simpl; [done |].
  intros [Hc Hs]%orb_false_iff. by rewrite Hc, IH.
Qed.

Lemma remainder_no_newline (s : string) : hasNewline (remainder s) = false.
Proof.
  unfold remainder. pose proof (split_newline_pieces s) as Hall.
  destruct (last (split_newline s)) as [l|] eqn:Hl; [|done].
  apply last_Some_elem_of in Hl. simpl.
  by apply (proj1 (Forall_forall _ _) Hall).
Qed.

Lemma completeLines_no_newline (s : string) : hasNewline s = false → completeLines s = [].
Proof. intros Hs. unfold completeLines. by rewrite split_newline_one. Qed.

(** The loop, for any state of its local variables in which the buffer
    holds no newline: the lines dispatched are the complete lines of the
    buffer followed by the decoded text. *)
Lemma readLoop_lines (reads : list (list Byte.byte)) (e : StreamEnd) (loc : Locals) (w : World) :
  hasNewline (buffer loc) = false →
  readLoop handler reads e loc w
  = finish e
      (forLines handler
         (completeLines (buffer loc +:+ (TextDecoder_decode (decoder loc) (concat reads)).2)) w).
Proof.
  revert loc w. induction reads as [|value rest IH]; intros loc w Hbuf; simpl.
  - rewrite append_empty_r, completeLines_no_newline by done. by destruct e.
  - unfold processChunk, pop.
    rewrite TextDecoder_decode_app.
    destruct (TextDecoder_decode (decoder loc) value) as [st1 t1]. simpl.
    rewrite IH by apply remainder_no_newline. simpl.
    fold (remainder (buffer loc +:+ t1)). fold (completeLines (buffer loc +:+ t1)).
    by rewrite <- (append_assoc (buffer loc) t1), (completeLines_app (buffer loc +:+ t1)),
      forLines_app.
Qed.

(** The decoder in terms of the whole text: however the bytes are cut into
    chunks, the lines handled are the complete lines of the decoded text. *)
Lemma processStreamWith_lines (body : Body) (w : World) :
  processStreamWith handler body w
  = finish (ending body)
      (forLines handler
         (completeLines (TextDecoder_decode TextDecoder_new (concat (chunks body))).2) w).
Proof. unfold processStreamWith. by rewrite readLoop_lines. Qed.

End DecoderFacts.

(* ===================================================================== *)
(** ** The event stream codec *)
(* ===================================================================== *)

Section Codec.
Context `{RT : Runtime}.
Variable JSON_stringify : JsValue → string.
Variable handler : JsValue → World → Outcome.

Lemma processLine_data (payload : string) (w : World) :
  processLine handler ("data: " +:+ payload) w
  = match JSON_parse payload with
    | Some data => tryHandle handler data w
    | None => parseFailed w
    end.
Proof.
  unfold processLine. rewrite startsWith_data.
  change (slice 6 ("data: " +:+ payload)) with payload.
  by destruct (JSON_parse payload).
Qed.

Lemma processLine_other (line : string) (w : World) :
  startsWith "data: " line = false → processLine handler line w = w.
Proof. intros Hline. unfold processLine. by rewrite Hline. Qed.

(** One record followed by more text, as two lines and the text. *)
Lemma encodeEvent_app (e : JsValue) (rest : string) :
  encodeEvent JSON_stringify e +:+ rest
  = ("data: " +:+ JSON_stringify e) +:+ String newline ("" +:+ String newline rest).
Proof.
  unfold encodeEvent.
  by rewrite (append_assoc "data: "), append_assoc, <- (append_assoc "data: ").
Qed.

Lemma encodeStream_cons (e : JsValue) (events : list JsValue) :
  encodeStream JSON_stringify (e :: events)
  = encodeEvent JSON_stringify e +:+ encodeStream JSON_stringify events.
Proof. done. Qed.

Lemma completeLines_encodeEvent (e : JsValue) (rest : string) :
  hasNewline (JSON_stringify e) = false →
  completeLines (encodeEvent JSON_stringify e +:+ rest)
  = ("data: " +:+ JSON_stringify e) :: "" :: completeLines rest.
Proof.
  intros He. rewrite encodeEvent_app.
  rewrite completeLines_line by (by rewrite hasNewline_app, He).
  by rewrite completeLines_line.
Qed.

Lemma encodeStream_endsAtLineBreak (events : list JsValue) :
  Forall (wellFormed JSON_stringify) events →
  endsAtLineBreak (encodeStream JSON_stringify events) = true.
Proof.
  unfold endsAtLineBreak.
  induction 1 as [|e events [He _] _ IH]; [done |].
  rewrite encodeStream_cons, encodeEvent_app.
  rewrite remainder_line by (by rewrite hasNewline_app, He).
  by rewrite remainder_line.
Qed.

Lemma forLines_cons (line : string) (lines : list string) (w : World) :
  forLines handler (line :: lines) w = forLines handler lines (processLine handler line w).
Proof. done. Qed.

(** The records of well-formed events, line by line: each event reaches the
    handler once, in order, and the blank lines between them do nothing. *)
Lemma forLines_encodeStream (events : list JsValue) (rest : string) (w : World) :
  Forall (wellFormed JSON_stringify) events →
  forLines handler (completeLines (encodeStream JSON_stringify events +:+ rest)) w
  = forLines handler (completeLines rest)
      (foldl (fun w' e => tryHandle handler e w') w events).
Proof.
  intros Hall. revert w.
  induction Hall as [|e events [He Hparse] _ IH]; intros w; [done |].
  rewrite encodeStream_cons, append_assoc, completeLines_encodeEvent by done.
  rewrite !forLines_cons, processLine_data, Hparse, processLine_other by done.
  apply IH.
Qed.

(** The round trip for any handler the decoder delivers to. *)
Lemma processStreamWith_round_trip
    (events : list JsValue) (chunks : list (list Byte.byte)) (w : World) :
  Forall (wellFormed JSON_stringify) events →
  (TextDecoder_decode TextDecoder_new (concat chunks)).2 = encodeStream JSON_stringify events →
  processStreamWith handler {| chunks := chunks; ending := EndOfStream |} w
  = foldl (fun w' e => tryHandle handler e w') w events.
Proof.
  intros Hall Htext.
  rewrite processStreamWith_lines. simpl. rewrite Htext.
  rewrite <- (append_empty_r (encodeStream JSON_stringify events)).
  by rewrite forLines_encodeStream.
Qed.

(** A malformed record between other text, for any handler the decoder
    delivers to: the inner catch runs once in its place and the lines after
    it are handled as the loop handles them. *)
Lemma processStreamWith_error_isolated
    (chunks : list (list Byte.byte)) (before junk mid rest : string)
    (later : list JsValue) (w : World) :
  endsAtLineBreak before = true →
  hasNewline junk = false →
  JSON_parse junk = None →
  endsAtLineBreak mid = true →
  Forall (wellFormed JSON_stringify) later →
  (TextDecoder_decode TextDecoder_new (concat chunks)).2
    = before +:+ malformedRecord junk +:+ mid +:+ encodeStream JSON_stringify later +:+ rest →
  processStreamWith handler {| chunks := chunks; ending := EndOfStream |} w
  = forLines handler (completeLines rest)
      (foldl (fun w' e => tryHandle handler e w')
         (forLines handler (completeLines mid)
            ((emit (ConsoleError "JSON parse error:") >>>
              addLog "System: Error parsing server response.")
               (forLines handler (completeLines before) w)))
         later).
Proof.
  intros Hbefore Hjunk Hparse Hmid Hlater Htext.
  rewrite processStreamWith_lines. simpl. rewrite Htext.
  rewrite (completeLines_aligned before), forLines_app by done.
  unfold malformedRecord.
  rewrite (append_assoc "data: "), append_assoc, <- (append_assoc "data: ").
  change (String newline "" +:+ ?t) with (String newline t).
  rewrite completeLines_line by (by rewrite hasNewline_app, Hjunk).
  rewrite forLines_cons, processLine_data, Hparse.
  rewrite (completeLines_aligned mid), forLines_app by done.
  by rewrite forLines_encodeStream.
Qed.

(** C9. Lines that are not data lines: a complete line that does not begin
    with data-colon-space leaves the world as it is (no event, no log entry,
    nothing on the console), so a stream with such a line is handled like
    the stream without it, whatever the chunking. *)
Theorem non_data_line_ignored
    (chunks : list (list Byte.byte)) (before line after : string) (w : World) :
  startsWith "data: " line = false →
  hasNewline line = false →
  endsAtLineBreak before = true →
  (TextDecoder_decode TextDecoder_new (concat chunks)).2
    = before +:+ line +:+ String newline after →
  (∀ w0, processLine handler line w0 = w0) ∧
  processStreamWith handler {| chunks := chunks; ending := EndOfStream |} w
  = forLines handler (completeLines (before +:+ after)) w.
Proof.
  intros Hline Hnl Hbefore Htext. split.
  - intros w0. by apply processLine_other.
  - rewrite processStreamWith_lines. simpl. rewrite Htext.
    rewrite !(completeLines_aligned before), !forLines_app by done.
    rewrite completeLines_line by done.
    by rewrite forLines_cons, processLine_other.
Qed.

End Codec.

(** C1. Round trip of the event stream codec: for every sequence of events
    the two JSON libraries agree on, encoded as data-colon-space, JSON and
    two newlines each, and for every list of chunks whose bytes, joined,
    decode to that text (so for every way to cut the bytes, also inside a
    line, a JSON token or a character), the world the decoder with its
    carry-over buffer leaves is the one obtained by calling handleStreamData
    on exactly these events, one call per event, in order, each call on the
    world the call before it left (and, should a call throw, the inner catch
    after it: console error and log entry); and so it is with any other
    handler put in the place of handleStreamData, which rules out that an
    event is lost, repeated, reordered or withheld from the handler
    unnoticed. *)
Theorem stream_round_trip `{RT : Runtime} (JSON_stringify : JsValue → string)
    (events : list JsValue) (chunks : list (list Byte.byte)) (w : World) :
  Forall (wellFormed JSON_stringify) events →
  (TextDecoder_decode TextDecoder_new (concat chunks)).2 = encodeStream JSON_stringify events →
  processStream {| chunks := chunks; ending := EndOfStream |} w
  = foldl (fun w' e =>
             match handleStreamData e w' with
             | Normal w'' => w''
             | Thrown w'' =>
                 (emit (ConsoleError "JSON parse error:") >>>
                  addLog "System: Error parsing server response.") w''
             end) w events ∧
  ∀ handler : JsValue → World → Outcome,
    processStreamWith handler {| chunks := chunks; ending := EndOfStream |} w
    = foldl (fun w' e =>
               match handler e w' with
               | Normal w'' => w''
               | Thrown w'' =>
                   (emit (ConsoleError "JSON parse error:") >>>
                    addLog "System: Error parsing server response.") w''
               end) w events.
Proof.
  intros Hall Htext. split.
  - exact (processStreamWith_round_trip JSON_stringify handleStreamData events chunks w Hall Htext).
  - intros handler.
    exact (processStreamWith_round_trip JSON_stringify handler events chunks w Hall Htext).
Qed.

(** C4. Decode-error isolation: a line that begins with data-colon-space and
    whose rest is not JSON makes the decoder log the parse error (on the
    console and in the page's log) and go on. Everything before the line has
    been handled as usual; after it come the lines of [mid], then
    handleStreamData is called on each well-formed event of [later], one
    call per event, in order, each on the world the call before it left,
    then come the lines of [rest]; whatever the chunking, and likewise for
    any other handler put in the place of handleStreamData. *)
Theorem decode_error_isolated `{RT : Runtime} (JSON_stringify : JsValue → string)
    (chunks : list (list Byte.byte)) (before junk mid rest : string)
    (later : list JsValue) (w : World) :
  endsAtLineBreak before = true →
  hasNewline junk = false →
  JSON_parse junk = None →
  endsAtLineBreak mid = true →
  Forall (wellFormed JSON_stringify) later →
  (TextDecoder_decode TextDecoder_new (concat chunks)).2
    = before +:+ malformedRecord junk +:+ mid +:+ encodeStream JSON_stringify later +:+ rest →
  processStream {| chunks := chunks; ending := EndOfStream |} w
  = forLines handleStreamData (completeLines rest)
      (foldl (fun w' e =>
                match handleStreamData e w' with
                | Normal w'' => w''
                | Thrown w'' =>
                    (emit (ConsoleError "JSON parse error:") >>>
                     addLog "System: Error parsing server response.") w''
                end)
         (forLines handleStreamData (completeLines mid)
            ((emit (ConsoleError "JSON parse error:") >>>
              addLog "System: Error parsing server response.")
               (forLines handleStreamData (completeLines before) w)))
         later) ∧
  ∀ handler : JsValue → World → Outcome,
    processStreamWith handler {| chunks := chunks; ending := EndOfStream |} w
    = forLines handler (completeLines rest)
        (foldl (fun w' e =>
                  match handler e w' with
                  | Normal w'' => w''
                  | Thrown w'' =>
                      (emit (ConsoleError "JSON parse error:") >>>
                       addLog "System: Error parsing server response.") w''
                  end)
           (forLines handler (completeLines mid)
              ((emit (ConsoleError "JSON parse error:") >>>
                addLog "System: Error parsing server response.")
                 (forLines handler (completeLines before) w)))
           later).
Proof.
  intros Hbefore Hjunk Hparse Hmid Hlater Htext. split.
  - exact (processStreamWith_error_isolated JSON_stringify handleStreamData
             chunks before junk mid rest later w Hbefore Hjunk Hparse Hmid Hlater Htext).
  - intros handler.
    exact (processStreamWith_error_isolated JSON_stringify handler
             chunks before junk mid rest later w Hbefore Hjunk Hparse Hmid Hlater Htext).
Qed.

(** The sample session, cut inside the prefix of its first record, comes
    out as handleStreamData called on its three events. *)
Lemma stream_round_trip_witness :
  Forall (wellFormed (RT := Sample.runtime) Sample.stringify)
    [Sample.thinking; Sample.front; Sample.final] ∧
  processStream (RT := Sample.runtime)
    {| chunks := Sample.cut Sample.wire; ending := EndOfStream |}
    (Sample.world Sample.readyPage)
  = foldl (fun w' e =>
             match handleStreamData (RT := Sample.runtime) e w' with
             | Normal w'' => w''
             | Thrown w'' =>
                 (emit (ConsoleError "JSON parse error:") >>>
                  addLog (RT := Sample.runtime) "System: Error parsing server response.") w''
             end)
      (Sample.world Sample.readyPage) [Sample.thinking; Sample.front; Sample.final].
Proof.
  assert (Forall (wellFormed (RT := Sample.runtime) Sample.stringify)
            [Sample.thinking; Sample.front; Sample.final]) as Hall.
  { repeat (constructor; [split; vm_compute; reflexivity |]). constructor. }
  split; [exact Hall |].
  apply (stream_round_trip (RT := Sample.runtime) Sample.stringify _ _ _ Hall).
  vm_compute. reflexivity.
Defined.

(** A record with a truncated payload between two good ones: handleStreamData
    is called on the first event, the error is logged, and handleStreamData
    is called on the event after it. *)
Lemma decode_error_isolated_witness :
  processStream (RT := Sample.runtime)
    {| chunks :=
         Sample.cut
           (Sample.bytes
              (encodeStream Sample.stringify [Sample.thinking] +:+
               malformedRecord "{oops" +:+ String newline "" +:+
               encodeStream Sample.stringify [Sample.final] +:+ ""));
       ending := EndOfStream |}
    (Sample.world Sample.readyPage)
  = match
      handleStreamData (RT := Sample.runtime) Sample.final
        ((emit (ConsoleError "JSON parse error:") >>>
          addLog (RT := Sample.runtime) "System: Error parsing server response.")
           match
             handleStreamData (RT := Sample.runtime) Sample.thinking
               (Sample.world Sample.readyPage)
           with
           | Normal w' => w'
           | Thrown w' =>
               (emit (ConsoleError "JSON parse error:") >>>
                addLog (RT := Sample.runtime) "System: Error parsing server response.") w'
           end)
    with
    | Normal w' => w'
    | Thrown w' =>
        (emit (ConsoleError "JSON parse error:") >>>
         addLog (RT := Sample.runtime) "System: Error parsing server response.") w'
    end.
Proof.
  rewrite (proj1
    (decode_error_isolated (RT := Sample.runtime) Sample.stringify
       (Sample.cut
          (Sample.bytes
             (encodeStream Sample.stringify [Sample.thinking] +:+
              malformedRecord "{oops" +:+ String newline "" +:+
              encodeStream Sample.stringify [Sample.final] +:+ "")))
       (encodeStream Sample.stringify [Sample.thinking]) "{oops"
       (String newline "") "" [Sample.final] (Sample.world Sample.readyPage)
       ltac:(vm_compute; reflexivity) ltac:(vm_compute; reflexivity)
       ltac:(vm_compute; reflexivity) ltac:(vm_compute; reflexivity)
       ltac:(constructor; [split; vm_compute; reflexivity | constructor])
       ltac:(vm_compute; reflexivity))).
  reflexivity.
Defined.

(** A comment line of the transport between two records changes nothing. *)
Lemma non_data_line_ignored_witness :
  (∀ w0, processLine (RT := Sample.runtime) (handleStreamData (RT := Sample.runtime)) ": keep-alive" w0 = w0) ∧
  processStreamWith (RT := Sample.runtime) (handleStreamData (RT := Sample.runtime))
    {| chunks :=
         Sample.cut
           (Sample.bytes
              (encodeStream Sample.stringify [Sample.thinking] +:+ ": keep-alive" +:+
               String newline (encodeStream Sample.stringify [Sample.final])));
       ending := EndOfStream |}
    (Sample.world Sample.readyPage)
  = forLines (RT := Sample.runtime) (handleStreamData (RT := Sample.runtime))
      (completeLines
         (encodeStream Sample.stringify [Sample.thinking] +:+
          encodeStream Sample.stringify [Sample.final]))
      (Sample.world Sample.readyPage).
Proof.
  apply (non_data_line_ignored (RT := Sample.runtime) (handleStreamData (RT := Sample.runtime))
           _ (encodeStream Sample.stringify [Sample.thinking]) ": keep-alive"
           (encodeStream Sample.stringify [Sample.final])).
  - vm_compute. reflexivity.
  - vm_compute. reflexivity.
  - vm_compute. reflexivity.
  - vm_compute. reflexivity.
Defined.

(* ===================================================================== *)
(** ** What an event does to the page *)
(* ===================================================================== *)

Section Events.
Context `{RT : Runtime}.

(** Only a value with properties can carry a field that counts as true. *)
Lemma truthy_getProp_object (data : JsValue) (k : string) :
  truthy (getProp data k) = true → ∃ fields, data = JObj fields.
Proof. destruct data; simpl; try done. eauto. Qed.

Ltac unfold_handler :=
  unfold tryHandle, handleStreamData, thenDo, whenP, addLogTemplate, run, throw, parseFailed,
    andThen, skip.

(** C7. Terminal events: an event whose final_candidate field counts as
    true (as every object does, so every candidate with its formula and
    properties), and whose agent and log fields can be written into a log
    line (strings or absent, as on the wire), is handled without an
    exception; afterwards the page holds that candidate as the final result
    and is no longer running, and when the event has a log line, the last
    entry of the log is that line after the word System. An event without
    such a field leaves isRunning as it was, whether it is handled normally
    or makes the handler throw. *)
Theorem final_candidate_ends_session (data : JsValue) (w : World) :
  (truthy (getProp data "final_candidate") = true →
   ∀ agentText logText,
     ToString (getProp data "agent") = Some agentText →
     ToString (getProp data "log") = Some logText →
     ∃ w', handleStreamData data w = Normal w' ∧
       finalCandidate (page w') = getProp data "final_candidate" ∧
       isRunning (page w') = false ∧
       (truthy (getProp data "log") = true →
        ∃ earlier,
          logs (page w')
          = logs (page w) ++ earlier ++
            [ {| time := toLocaleTimeString (ticks w' - 1);
                 message := "System: " +:+ logText |} ])) ∧
  (truthy (getProp data "final_candidate") = false →
   isRunning (page (tryHandle handleStreamData data w)) = isRunning (page w)).
Proof.
  split.
  - intros Hfc agentText logText Hagent Hlog.
    destruct (truthy_getProp_object _ _ Hfc) as [fields ->].
    unfold_handler. rewrite Hfc, Hagent, Hlog.
    destruct (truthy (getProp (JObj fields) "agent")),
      (truthy (getProp (JObj fields) "log")),
      (truthy (getProp (JObj fields) "pareto_front")); simpl;
      (eexists; split; [reflexivity |]); simpl;
      (split; [done |]); (split; [done |]); intros Hl; try done.
    + eexists [_]. simpl. by rewrite <- app_assoc, ?Nat.sub_0_r.
    + eexists [_]. simpl. by rewrite <- app_assoc, ?Nat.sub_0_r.
    + exists []. simpl. by rewrite ?Nat.sub_0_r.
    + exists []. simpl. by rewrite ?Nat.sub_0_r.
  - intros Hfc. unfold_handler.
    destruct data; try done; rewrite ?Hfc; simpl; repeat case_match; by simplify_eq.
Qed.

Lemma lookup_map {A B : Type} (f : A → B) (l : list A) (i : nat) :
  map f l !! i = f <$> (l !! i).
Proof. revert i. induction l as [|x l IH]; intros [|i]; simpl; auto. Qed.

(** The agents once a status event has been dealt with: the update of line
    153, whatever else the event carries and also when writing its log
    line throws. *)
Lemma tryHandle_agents (data : JsValue) (w : World) :
  truthy (getProp data "agent") = true →
  agents (page (tryHandle handleStreamData data w))
  = map (fun a =>
           if strictEqStr (name a) (getProp data "agent")
           then {| icon := icon a; name := name a;
                   status := getProp data "status"; color := color a |}
           else a) (agents (page w)).
Proof.
  intros Hagent. destruct (truthy_getProp_object _ _ Hagent) as [fields ->].
  unfold_handler. rewrite Hagent. simpl. repeat case_match; simplify_eq; done.
Qed.

Lemma strictEqStr_spec (s : string) (v : JsValue) :
  strictEqStr s v = true ↔ JStr s = v.
Proof.
  destruct v; simpl; try (split; [done | by intros [=]]).
  rewrite String.eqb_eq. split; [by intros ->| by intros [=]].
Qed.

(** C8. Frame of a status update: once the decoder has dealt with an event
    whose agent field counts as true, every entry of the list of agents has
    kept its place, icon, name and color; an entry whose name is the agent
    field has the event's status, every other entry is unchanged; when no
    entry has that name the list is unchanged; and with distinct names, as
    in the list of five, at most one entry has that name. *)
Theorem agent_status_frame (data : JsValue) (w : World) :
  truthy (getProp data "agent") = true →
  length (agents (page (tryHandle handleStreamData data w))) = length (agents (page w)) ∧
  (∀ i a, agents (page w) !! i = Some a →
     ∃ a', agents (page (tryHandle handleStreamData data w)) !! i = Some a' ∧
       icon a' = icon a ∧ name a' = name a ∧ color a' = color a ∧
       (JStr (name a) = getProp data "agent" → status a' = getProp data "status") ∧
       (JStr (name a) ≠ getProp data "agent" → a' = a)) ∧
  ((∀ a, a ∈ agents (page w) → JStr (name a) ≠ getProp data "agent") →
   agents (page (tryHandle handleStreamData data w)) = agents (page w)) ∧
  (NoDup (name <$> agents (page w)) →
   ∀ i j a b, agents (page w) !! i = Some a → agents (page w) !! j = Some b →
     JStr (name a) = getProp data "agent" → JStr (name b) = getProp data "agent" →
     i = j).
Proof.
  intros Hagent. rewrite (tryHandle_agents data w Hagent).
  split; [|split; [|split]].
  - by rewrite length_map.
  - intros i a Hi. rewrite lookup_map, Hi. simpl. eexists. split; [reflexivity |].
    destruct (strictEqStr (name a) (getProp data "agent")) eqn:Heq; simpl.
    + repeat split; try done. intros Hne. exfalso. apply Hne. by apply strictEqStr_spec.
    + repeat split; try done. intros Hname%strictEqStr_spec. congruence.
  - generalize (agents (page w)). intros l Hnone.
    induction l as [|a l IH]; simpl; [done |].
    rewrite IH by (intros b Hb; apply Hnone; by right).
    destruct (strictEqStr (name a) (getProp data "agent")) eqn:Heq; [|done].
    exfalso. apply (Hnone a); [by left | by apply strictEqStr_spec].
  - intros Hnodup i j a b Hi Hj Ha Hb.
    apply (NoDup_lookup _ i j (name a) Hnodup).
    + by rewrite list_lookup_fmap, Hi.
    + rewrite list_lookup_fmap, Hj. simpl. f_equal. congruence.
Qed.

End Events.

(** The planning event of the sample session sets Athena to thinking. *)
Lemma agent_status_frame_witness :
  length (agents (page (tryHandle (RT := Sample.runtime) (handleStreamData (RT := Sample.runtime))
                          Sample.thinking (Sample.world Sample.readyPage))))
  = length (agents (page (Sample.world Sample.readyPage))) ∧
  (∀ i a, agents (page (Sample.world Sample.readyPage)) !! i = Some a →
     ∃ a', agents (page (tryHandle (RT := Sample.runtime)
                           (handleStreamData (RT := Sample.runtime))
                           Sample.thinking (Sample.world Sample.readyPage))) !! i = Some a' ∧
       icon a' = icon a ∧ name a' = name a ∧ color a' = color a ∧
       (JStr (name a) = getProp Sample.thinking "agent" →
        status a' = getProp Sample.thinking "status") ∧
       (JStr (name a) ≠ getProp Sample.thinking "agent" → a' = a)) ∧
  ((∀ a, a ∈ agents (page (Sample.world Sample.readyPage)) →
         JStr (name a) ≠ getProp Sample.thinking "agent") →
   agents (page (tryHandle (RT := Sample.runtime) (handleStreamData (RT := Sample.runtime))
                   Sample.thinking (Sample.world Sample.readyPage)))
   = agents (page (Sample.world Sample.readyPage))) ∧
  (NoDup (name <$> agents (page (Sample.world Sample.readyPage))) →
   ∀ i j a b, agents (page (Sample.world Sample.readyPage)) !! i = Some a →
     agents (page (Sample.world Sample.readyPage)) !! j = Some b →
     JStr (name a) = getProp Sample.thinking "agent" →
     JStr (name b) = getProp Sample.thinking "agent" →
     i = j).
Proof.
  apply (agent_status_frame (RT := Sample.runtime) Sample.thinking
           (Sample.world Sample.readyPage)).
  vm_compute. reflexivity.
Defined.

(** The final event of the sample session ends it. *)
Lemma final_candidate_ends_session_witness :
  ∃ w', handleStreamData (RT := Sample.runtime) Sample.final (Sample.world Sample.readyPage)
        = Normal w' ∧
    finalCandidate (page w') = getProp Sample.final "final_candidate" ∧
    isRunning (page w') = false ∧
    (truthy (getProp Sample.final "log") = true →
     ∃ earlier,
       logs (page w')
       = logs (page (Sample.world Sample.readyPage)) ++ earlier ++
         [ {| time := toLocaleTimeString (Runtime := Sample.runtime) (ticks w' - 1);
              message := "System: " +:+ "Discovery complete" |} ]).
Proof.
  apply (proj1 (final_candidate_ends_session (RT := Sample.runtime) Sample.final
                  (Sample.world Sample.readyPage)) eq_refl "undefined" "Discovery complete").
  - vm_compute. reflexivity.
  - vm_compute. reflexivity.
Defined.

(* ===================================================================== *)
(** ** Starting and retrying a session *)
(* ===================================================================== *)

Section Sessions.
Context `{RT : Runtime}.

Lemma emptyStr_spec (s : string) : emptyStr s = true ↔ s = "".
Proof. unfold emptyStr. apply String.eqb_eq. Qed.

(** C5. Credential precondition: when the Materials Project key is empty,
    or both language-model keys are, handleDiscovery shows the alert and
    returns: the page state is untouched, nothing is requested, and what a
    server would have answered plays no part. *)
Theorem missing_credentials_stop (snap : PageState) (resp : Response) (w : World) :
  mpApiKey snap = "" ∨ (openaiApiKey snap = "" ∧ googleApiKey snap = "") →
  handleDiscovery snap resp w
  = {| page := page w;
       effects := effects w ++
         [Alert "Please enter Materials Project API key and at least one LLM API key (OpenAI or Google)."];
       ticks := ticks w |} ∧
  countFetch (effects (handleDiscovery snap resp w)) = countFetch (effects w).
Proof.
  intros Hkeys.
  assert (emptyStr (mpApiKey snap) || (emptyStr (openaiApiKey snap) && emptyStr (googleApiKey snap))
          = true) as Hcheck.
  { destruct Hkeys as [-> | [-> ->]]; [done |]. simpl. apply orb_true_r. }
  unfold handleDiscovery. rewrite Hcheck. split; [done |].
  unfold emit, countFetch. simpl. rewrite List.filter_app. simpl. by rewrite app_nil_r.
Qed.

(** With the keys entered, handleDiscovery is the reset, the request and
    the handling of the response, in this order. *)
Lemma handleDiscovery_checked (snap : PageState) (resp : Response) (w : World) :
  mpApiKey snap ≠ "" →
  openaiApiKey snap ≠ "" ∨ googleApiKey snap ≠ "" →
  handleDiscovery snap resp w = consumeResponse resp (requestDiscover snap (startSession w)).
Proof.
  intros Hmp Hllm.
  assert (emptyStr (mpApiKey snap) || (emptyStr (openaiApiKey snap) && emptyStr (googleApiKey snap))
          = false) as Hcheck.
  { apply orb_false_iff. split.
    - apply not_true_is_false. by rewrite emptyStr_spec.
    - apply andb_false_iff.
      destruct Hllm as [H | H]; [left | right]; apply not_true_is_false; by rewrite emptyStr_spec. }
  unfold handleDiscovery. by rewrite Hcheck.
Qed.

(** C10. Session reset: when the credential check passes, handleDiscovery
    first puts the page into the state of a new session (running, no logs,
    no chart data, no final candidate, all agents idle, no objectives, no
    error, retry count zero; whatever these were before, also what a retry
    has just queued), then issues the request, then consumes the response
    from that state. *)
Theorem session_reset (snap : PageState) (resp : Response) (w : World) :
  mpApiKey snap ≠ "" →
  openaiApiKey snap ≠ "" ∨ googleApiKey snap ≠ "" →
  handleDiscovery snap resp w
  = consumeResponse resp (requestDiscover snap (startSession w)) ∧
  page (requestDiscover snap (startSession w))
  = {| prompt := prompt (page w); isRunning := true; logs := []; chartData := JArr [];
       finalCandidate := JNull; objectives := [];
       openaiApiKey := openaiApiKey (page w); googleApiKey := googleApiKey (page w);
       mpApiKey := mpApiKey (page w);
       retryCount := 0; hasError := false; agents := initialAgents |} ∧
  effects (requestDiscover snap (startSession w))
  = effects w ++ [Fetch (prompt snap) (openaiApiKey snap) (googleApiKey snap) (mpApiKey snap)].
Proof.
  intros Hmp Hllm. split; [by apply handleDiscovery_checked | done].
Qed.

(** The guard of handleRetry: with three retries counted, it only logs. *)
Lemma handleRetry_exhausted (snap : PageState) (resp : Response) (w : World) :
  3 ≤ retryCount snap →
  handleRetry snap resp w
  = addLog "System: Maximum retry attempts reached. Please check your configuration and try again later." w.
Proof.
  intros Hcount. unfold handleRetry.
  by rewrite (proj2 (Nat.ltb_ge _ _) Hcount).
Qed.

(** Below the bound, handleRetry counts, logs and starts over. *)
Lemma handleRetry_allowed (snap : PageState) (resp : Response) (w : World) :
  retryCount snap < 3 →
  handleRetry snap resp w
  = handleDiscovery snap resp
      (addLog ("System: Retry attempt " +:+ natToString (retryCount snap + 1) +:+ "/3...")
         (setRetryCount (fun prev => prev + 1) w)).
Proof.
  intros Hcount. unfold handleRetry.
  by rewrite (proj2 (Nat.ltb_lt _ _) Hcount).
Qed.

(** A retry whose request fails again: one more request, and the page is
    ready for the next retry, its count back at zero. *)
Lemma clickRetry_failed (httpStatus : nat) (w : World) :
  retryReady (page w) →
  retryReady (page (clickRetry (HttpNotOk httpStatus) w)) ∧
  countFetch (effects (clickRetry (HttpNotOk httpStatus) w)) = S (countFetch (effects w)).
Proof.
  intros (Hmp & Hllm & Herr & Hrun & Hcount).
  assert (retryButtonEnabled (page w) = true) as Henabled.
  { unfold retryButtonEnabled. by rewrite Herr, Hrun, Hcount. }
  unfold clickRetry. rewrite Henabled.
  rewrite handleRetry_allowed by lia.
  rewrite handleDiscovery_checked by done.
  split.
  - by repeat split.
  - unfold countFetch. simpl. rewrite List.filter_app. simpl. rewrite length_app. simpl. lia.
Qed.

(** C6, what the code does: however often Retry is clicked on a page with
    its keys whose requests keep failing, every click replays the session.
    After n clicks n requests have been issued, the count stands at zero and
    the button is enabled: the reset of line 118 undoes the increment of
    line 201, so the bound of three is never reached. *)
Theorem retry_replays_unbounded (n httpStatus : nat) :
  countFetch
    (effects (retryClicks (repeat (HttpNotOk httpStatus) n) (Sample.world Sample.failedPage)))
  = n ∧
  retryCount
    (page (retryClicks (repeat (HttpNotOk httpStatus) n) (Sample.world Sample.failedPage)))
  = 0 ∧
  retryButtonEnabled
    (page (retryClicks (repeat (HttpNotOk httpStatus) n) (Sample.world Sample.failedPage)))
  = true.
Proof.
  assert (∀ w, retryReady (page w) →
            retryReady (page (retryClicks (repeat (HttpNotOk httpStatus) n) w)) ∧
            countFetch (effects (retryClicks (repeat (HttpNotOk httpStatus) n) w))
            = n + countFetch (effects w)) as Hgen.
  { induction n as [|n IH]; intros w Hw; [done |].
    destruct (clickRetry_failed httpStatus w Hw) as [Hready Hcount].
    destruct (IH _ Hready) as [Hready' Hcount'].
    change (retryClicks (repeat (HttpNotOk httpStatus) (S n)) w)
      with (retryClicks (repeat (HttpNotOk httpStatus) n) (clickRetry (HttpNotOk httpStatus) w)).
    split; [done |]. rewrite Hcount', Hcount. lia. }
  destruct (Hgen (Sample.world Sample.failedPage)) as [(_ & _ & Herr & Hrun & Hcount) Hfetch].
  { repeat split; try done. by right. }
  rewrite Hfetch. change (countFetch (effects (Sample.world Sample.failedPage))) with 0.
  repeat split; [lia | done |].
  unfold retryButtonEnabled. by rewrite Herr, Hrun, Hcount.
Qed.

End Sessions.

(** A page without the Materials Project key only shows the alert. *)
Lemma missing_credentials_stop_witness :
  handleDiscovery (RT := Sample.runtime) initialPage (HttpNotOk 500) (Sample.world initialPage)
  = {| page := page (Sample.world initialPage);
       effects := effects (Sample.world initialPage) ++
         [Alert "Please enter Materials Project API key and at least one LLM API key (OpenAI or Google)."];
       ticks := ticks (Sample.world initialPage) |} ∧
  countFetch
    (effects (handleDiscovery (RT := Sample.runtime) initialPage (HttpNotOk 500)
                (Sample.world initialPage)))
  = countFetch (effects (Sample.world initialPage)).
Proof.
  apply (missing_credentials_stop (RT := Sample.runtime) initialPage (HttpNotOk 500)
           (Sample.world initialPage)).
  left. reflexivity.
Defined.

(** A new session on a page that shows the outcome of a failed one. *)
Lemma session_reset_witness :
  handleDiscovery (RT := Sample.runtime) Sample.failedPage (HttpNotOk 500)
    (Sample.world Sample.failedPage)
  = consumeResponse (RT := Sample.runtime) (HttpNotOk 500)
      (requestDiscover Sample.failedPage (startSession (Sample.world Sample.failedPage))) ∧
  page (requestDiscover Sample.failedPage (startSession (Sample.world Sample.failedPage)))
  = {| prompt := prompt Sample.failedPage; isRunning := true; logs := []; chartData := JArr [];
       finalCandidate := JNull; objectives := [];
       openaiApiKey := openaiApiKey Sample.failedPage;
       googleApiKey := googleApiKey Sample.failedPage;
       mpApiKey := mpApiKey Sample.failedPage;
       retryCount := 0; hasError := false; agents := initialAgents |} ∧
  effects (requestDiscover Sample.failedPage (startSession (Sample.world Sample.failedPage)))
  = effects (Sample.world Sample.failedPage) ++
    [Fetch (prompt Sample.failedPage) (openaiApiKey Sample.failedPage)
       (googleApiKey Sample.failedPage) (mpApiKey Sample.failedPage)].
Proof.
  apply (session_reset (RT := Sample.runtime) Sample.failedPage (HttpNotOk 500)
           (Sample.world Sample.failedPage)).
  - discriminate.
  - right. discriminate.
Defined.

(* ===================================================================== *)
(** ** The dominance engine: front and best candidate *)
(* ===================================================================== *)

Module DominanceFacts.
Import DominanceEngine.

Lemma strict_spec (x y : Q) : negb (Qle_bool x y) = true ↔ (y < x)%Q.
Proof.
  rewrite negb_true_iff. split.
  - intros H. apply Qnot_le_lt. intros Hle. apply Qle_bool_iff in Hle. congruence.
  - intros H. apply not_true_is_false. intros Hle%Qle_bool_iff. by apply Qlt_not_le in H.
Qed.

Lemma atLeastAsGood_trans (o : Objective) (a b c : Candidate) :
  atLeastAsGood o a b = true → atLeastAsGood o b c = true → atLeastAsGood o a c = true.
Proof.
  unfold atLeastAsGood.
  destruct (properties a !! property o) as [x|], (properties b !! property o) as [y|],
    (properties c !! property o) as [z|]; try done.
  destruct (direction o); rewrite !Qle_bool_iff; intros H1 H2; by eapply Qle_trans.
Qed.

Lemma strictlyBetter_atLeastAsGood (o : Objective) (a b c : Candidate) :
  strictlyBetter o a b = true → atLeastAsGood o b c = true → strictlyBetter o a c = true.
Proof.
  unfold strictlyBetter, atLeastAsGood.
  destruct (properties a !! property o) as [x|], (properties b !! property o) as [y|],
    (properties c !! property o) as [z|]; try done.
  destruct (direction o); rewrite !strict_spec, !Qle_bool_iff; intros H1 H2.
  - by eapply Qle_lt_trans.
  - by eapply Qlt_le_trans.
Qed.

Lemma strictlyBetter_irrefl (o : Objective) (a : Candidate) : strictlyBetter o a a = false.
Proof.
  unfold strictlyBetter. destruct (properties a !! property o) as [x|]; [|done].
  assert (Qle_bool x x = true) as Hx by (apply Qle_bool_iff, Qle_refl).
  destruct (direction o); by rewrite Hx.
Qed.

(** Dominance is a strict order: nothing dominates itself, and it is transitive. *)
Lemma dominates_irrefl (objectives : list Objective) (a : Candidate) :
  dominates objectives a a = false.
Proof.
  unfold dominates. apply andb_false_iff. right.
  apply not_true_is_false. intros (o & _ & Ho)%existsb_exists.
  by rewrite strictlyBetter_irrefl in Ho.
Qed.

Lemma dominates_trans (objectives : list Objective) (a b c : Candidate) :
  dominates objectives a b = true → dominates objectives b c = true →
  dominates objectives a c = true.
Proof.
  unfold dominates. intros [Hab Sab]%andb_true_iff [Hbc _]%andb_true_iff.
  apply andb_true_iff. split.
  - apply forallb_forall. intros o Ho.
    eapply atLeastAsGood_trans; [by eapply forallb_forall in Hab | by eapply forallb_forall in Hbc].
  - apply existsb_exists in Sab as (o & Ho & Hs). apply existsb_exists. exists o. split; [done |].
    eapply strictlyBetter_atLeastAsGood; [done | by eapply forallb_forall in Hbc].
Qed.

Lemma filter_length_le {A : Type} (P Q : A → bool) (l : list A) :
  (∀ y, In y l → P y = true → Q y = true) →
  length (List.filter P l) ≤ length (List.filter Q l).
Proof.
  induction l as [|y l IH]; intros Himp; simpl; [done |].
  assert (length (List.filter P l) ≤ length (List.filter Q l)) as Hle.
  { apply IH. intros z Hz. apply Himp. by right. }
  destruct (P y) eqn:HP.
  - rewrite (Himp y (or_introl eq_refl) HP). simpl. lia.
  - destruct (Q y); simpl; lia.
Qed.

Lemma filter_length_lt {A : Type} (P Q : A → bool) (l : list A) (x : A) :
  (∀ y, In y l → P y = true → Q y = true) →
  In x l → P x = false → Q x = true →
  length (List.filter P l) < length (List.filter Q l).
Proof.
  induction l as [|y l IH]; intros Himp Hx HP HQ; simpl; [done |].
  assert (∀ z, In z l → P z = true → Q z = true) as Himp'.
  { intros z Hz. apply Himp. by right. }
  destruct Hx as [-> | Hx].
  - rewrite HP, HQ. simpl. pose proof (filter_length_le P Q l Himp'). lia.
  - specialize (IH Himp' Hx HP HQ).
    destruct (P y) eqn:HPy.
    + rewrite (Himp y (or_introl eq_refl) HPy). simpl. lia.
    + destruct (Q y); simpl; lia.
Qed.

(** In a finite list every element is undominated or dominated by an
    undominated element of the list. *)
Lemma dominated_by_maximal (objectives : list Objective) (l : list Candidate) (c : Candidate) :
  In c l →
  existsb (fun d => dominates objectives d c) l = false ∨
  ∃ d, In d l ∧ existsb (fun e => dominates objectives e d) l = false ∧
       dominates objectives d c = true.
Proof.
  remember (length (List.filter (fun d => dominates objectives d c) l)) as n eqn:Hn.
  revert c Hn. induction n as [n IH] using lt_wf_ind. intros c Hn Hc.
  destruct (existsb (fun d => dominates objectives d c) l) eqn:Hex; [|by left].
  right. apply existsb_exists in Hex as (d & Hd & Hdc).
  assert (length (List.filter (fun e => dominates objectives e d) l) < n) as Hlt.
  { rewrite Hn. apply (filter_length_lt _ _ l d); try done.
    - intros e _ Hed. by eapply dominates_trans.
    - apply dominates_irrefl. }
  destruct (IH _ Hlt d eq_refl Hd) as [Hmax | (d' & Hd' & Hmax & Hdd)].
  - by exists d.
  - exists d'. repeat split; try done. by eapply dominates_trans.
Qed.

(** C2. Pareto front of computeFront, for every list of candidates and every
    list of objectives with their directions: a candidate is in the front
    exactly when it is an eligible candidate that no eligible candidate
    dominates; dominance is at least as good on every objective and
    strictly better on one, and nothing dominates itself; so no member of
    the front is dominated by an eligible candidate, and every eligible
    candidate outside the front is dominated by a member of the front. *)
Theorem computeFront_pareto (candidates : list Candidate) (objectives : list Objective) :
  (∀ c, In c (computeFront candidates objectives).1 ↔
        In c candidates ∧ eligible objectives c = true ∧
        ∀ d, In d candidates → eligible objectives d = true → dominates objectives d c = false) ∧
  (∀ a b, dominates objectives a b = true ↔
          (∀ o, In o objectives → atLeastAsGood o a b = true) ∧
          (∃ o, In o objectives ∧ strictlyBetter o a b = true)) ∧
  (∀ a, dominates objectives a a = false) ∧
  (∀ c d, In c (computeFront candidates objectives).1 → In d candidates →
          eligible objectives d = true → dominates objectives d c = false) ∧
  (∀ c, In c candidates → eligible objectives c = true →
        ¬ In c (computeFront candidates objectives).1 →
        ∃ d, In d (computeFront candidates objectives).1 ∧ dominates objectives d c = true).
Proof.
  assert (∀ c, In c (computeFront candidates objectives).1 ↔
            In c candidates ∧ eligible objectives c = true ∧
            ∀ d, In d candidates → eligible objectives d = true →
                 dominates objectives d c = false) as Hfront.
  { intros c. unfold computeFront. simpl. rewrite !filter_In, negb_true_iff. split.
    - intros [[Hc He] Hnone]. repeat split; try done. intros d Hd Hde.
      apply not_true_is_false. intros Hdom.
      assert (existsb (fun d => dominates objectives d c)
                (List.filter (eligible objectives) candidates) = true); [|congruence].
      apply existsb_exists. exists d. by rewrite filter_In.
    - intros (Hc & He & Hnone). repeat split; try done.
      apply not_true_is_false. intros (d & [Hd Hde]%filter_In & Hdom)%existsb_exists.
      by rewrite (Hnone d Hd Hde) in Hdom. }
  split; [exact Hfront |]. split; [|split; [|split]].
  - intros a b. unfold dominates. rewrite andb_true_iff, forallb_forall, existsb_exists. done.
  - apply dominates_irrefl.
  - intros c d Hc Hd Hde. apply Hfront in Hc as (_ & _ & Hnone). by apply Hnone.
  - intros c Hc He Hout.
    assert (In c (List.filter (eligible objectives) candidates)) as Hcel by (by apply filter_In).
    destruct (dominated_by_maximal objectives _ c Hcel) as [Hmax | (d & Hd & Hmax & Hdc)].
    + exfalso. apply Hout. unfold computeFront. simpl.
      apply filter_In. split; [done |]. by rewrite Hmax.
    + exists d. split; [|done]. unfold computeFront. simpl.
      apply filter_In. split; [done |]. by rewrite Hmax.
Qed.

Lemma filter_Permutation {A : Type} (P : A → bool) (l l' : list A) :
  Permutation l l' → Permutation (List.filter P l) (List.filter P l').
Proof.
  induction 1 as [|x l l' _ IH|x y l|l l' l'' _ IH1 _ IH2]; simpl.
  - done.
  - destruct (P x); [by constructor | done].
  - destruct (P x), (P y); try done. constructor.
  - by etrans.
Qed.

Lemma existsb_Permutation {A : Type} (P : A → bool) (l l' : list A) :
  Permutation l l' → existsb P l = existsb P l'.
Proof.
  intros Hperm. apply eq_true_iff_eq. rewrite !existsb_exists.
  split; intros (x & Hx & HP); exists x; split; try done.
  - by eapply Permutation_in.
  - eapply Permutation_in; [by symmetry | done].
Qed.

(** The front of a permutation of the candidates is a permutation of the front. *)
Lemma computeFront_Permutation (candidates candidates' : list Candidate)
    (objectives : list Objective) :
  Permutation candidates candidates' →
  Permutation (computeFront candidates objectives).1 (computeFront candidates' objectives).1.
Proof.
  intros Hperm. unfold computeFront. simpl.
  pose proof (filter_Permutation (eligible objectives) _ _ Hperm) as Hel.
  rewrite (filter_ext _
             (fun c => negb (existsb (fun d => dominates objectives d c)
                                (List.filter (eligible objectives) candidates')))).
  - by apply filter_Permutation.
  - intros c. f_equal. by apply existsb_Permutation.
Qed.

Lemma ltb_leb (s1 s2 : string) : String.ltb s1 s2 = true → String.leb s1 s2 = true.
Proof. unfold String.ltb, String.leb. by destruct (String.compare s1 s2). Qed.

Lemma ltb_false_leb (s1 s2 : string) : String.ltb s1 s2 = false → String.leb s2 s1 = true.
Proof.
  unfold String.ltb, String.leb. rewrite (String.compare_antisym s1 s2).
  by destruct (String.compare s2 s1).
Qed.

Lemma leb_trans (s1 s2 s3 : string) :
  String.leb s1 s2 = true → String.leb s2 s3 = true → String.leb s1 s3 = true.
Proof.
  intros H12 H23. apply Is_true_true.
  apply (PreOrder_Transitive (R := String.le) s1 s2 s3); by apply Is_true_true.
Qed.

Lemma leb_refl (s : string) : String.leb s s = true.
Proof. apply Is_true_true. apply (PreOrder_Reflexive (R := String.le) s). Qed.

(** The tie-break from a running minimum [m]: the result comes from [m] or
    the list and its id is smallest among them. *)
Lemma best_from (m : Candidate) (l : list Candidate) :
  ∃ b, foldl (fun acc c =>
                match acc with
                | None => Some c
                | Some m' => if String.ltb (id c) (id m') then Some c else Some m'
                end) (Some m) l = Some b ∧
       (b = m ∨ In b l) ∧
       String.leb (id b) (id m) = true ∧
       ∀ c, In c l → String.leb (id b) (id c) = true.
Proof.
  revert m. induction l as [|x l IH]; intros m; simpl.
  - exists m. repeat split; [by left | apply leb_refl | done].
  - destruct (String.ltb (id x) (id m)) eqn:Hlt.
    + destruct (IH x) as (b & -> & Hin & Hbx & Hall). exists b. repeat split.
      * destruct Hin as [-> | Hin]; right; [by left | by right].
      * eapply leb_trans; [done | by apply ltb_leb].
      * intros c [<- | Hc]; [done | by apply Hall].
    + destruct (IH m) as (b & -> & Hin & Hbm & Hall). exists b. repeat split.
      * destruct Hin as [-> | Hin]; [by left | right; by right].
      * done.
      * intros c [<- | Hc]; [|by apply Hall].
        eapply leb_trans; [done | by apply ltb_false_leb].
Qed.

(** The best candidate is a member with the smallest id; there is none
    exactly when the list is empty. *)
Lemma best_spec (front : list Candidate) :
  match best front with
  | Some b => In b front ∧ ∀ c, In c front → String.leb (id b) (id c) = true
  | None => front = []
  end.
Proof.
  destruct front as [|x l]; [done |].
  unfold best. simpl. destruct (best_from x l) as (b & -> & Hin & Hbx & Hall).
  split.
  - destruct Hin as [-> | Hin]; [by left | by right].
  - intros c [<- | Hc]; [done | by apply Hall].
Qed.

Lemma NoDup_id_inj (l : list Candidate) (a b : Candidate) :
  NoDup (map id l) → In a l → In b l → id a = id b → a = b.
Proof.
  induction l as [|x l IH]; simpl; [done |].
  intros [Hx Hl]%NoDup_cons [<- | Ha] [<- | Hb] Hid; try done.
  - exfalso. apply Hx. rewrite Hid. apply list_elem_of_In. by apply in_map.
  - exfalso. apply Hx. rewrite <- Hid. apply list_elem_of_In. by apply in_map.
  - by apply IH.
Qed.

Lemma computeFront_subset (candidates : list Candidate) (objectives : list Objective)
    (c : Candidate) :
  In c (computeFront candidates objectives).1 → In c candidates.
Proof. unfold computeFront. simpl. rewrite !filter_In. tauto. Qed.

(** C3. Determinism and tie-break: computeFront is a function of its
    inputs, and on a permutation of the candidates it returns a permutation
    of the same front and a best candidate with the same id, the same
    candidate when ids are not shared; the best candidate is a member of the
    front whose id is smallest in the lexicographic order, and there is none
    exactly when the front is empty. *)
Theorem computeFront_deterministic (candidates candidates' : list Candidate)
    (objectives : list Objective) :
  Permutation candidates candidates' →
  Permutation (computeFront candidates objectives).1 (computeFront candidates' objectives).1 ∧
  id <$> (computeFront candidates objectives).2 = id <$> (computeFront candidates' objectives).2 ∧
  (NoDup (map id candidates) →
   (computeFront candidates objectives).2 = (computeFront candidates' objectives).2) ∧
  match (computeFront candidates objectives).2 with
  | Some b =>
      In b (computeFront candidates objectives).1 ∧
      ∀ c, In c (computeFront candidates objectives).1 → String.leb (id b) (id c) = true
  | None => (computeFront candidates objectives).1 = []
  end.
Proof.
  intros Hperm.
  pose proof (computeFront_Permutation _ _ objectives Hperm) as Hfront.
  pose proof (best_spec (computeFront candidates objectives).1) as Hbest.
  pose proof (best_spec (computeFront candidates' objectives).1) as Hbest'.
  change (best (computeFront candidates objectives).1)
    with (computeFront candidates objectives).2 in Hbest.
  change (best (computeFront candidates' objectives).1)
    with (computeFront candidates' objectives).2 in Hbest'.
  split; [done |].
  assert (∀ b b', (computeFront candidates objectives).2 = Some b →
                  (computeFront candidates' objectives).2 = Some b' → id b = id b') as Hids.
  { intros b b' Hb Hb'. rewrite Hb in Hbest. rewrite Hb' in Hbest'.
    destruct Hbest as [Hin Hmin], Hbest' as [Hin' Hmin'].
    apply String.leb_antisym.
    - apply Hmin. eapply Permutation_in; [by symmetry | done].
    - apply Hmin'. by eapply Permutation_in. }
  destruct (computeFront candidates objectives).2 as [b|] eqn:Hb,
    (computeFront candidates' objectives).2 as [b'|] eqn:Hb'; simpl.
  - split; [f_equal; by apply Hids |]. split; [|done].
    intros Hnodup. f_equal. apply (NoDup_id_inj candidates); try done.
    + eapply computeFront_subset, Hbest.
    + eapply Permutation_in; [by symmetry |]. eapply computeFront_subset, Hbest'.
    + by apply Hids.
  - exfalso. destruct Hbest as [Hin _]. rewrite Hbest' in Hfront.
    apply Permutation_sym, Permutation_nil in Hfront. by rewrite Hfront in Hin.
  - exfalso. destruct Hbest' as [Hin _]. rewrite Hbest in Hfront.
    apply Permutation_nil in Hfront. by rewrite Hfront in Hin.
  - done.
Qed.

End DominanceFacts.

(** The scenario of the specification, in two orders: the front is A and B,
    and A, whose id is smaller, is the best candidate. *)
Lemma computeFront_deterministic_witness :
  Permutation
    (DominanceEngine.computeFront [Sample.candA; Sample.candB; Sample.candC]
       Sample.scenarioObjectives).1
    (DominanceEngine.computeFront [Sample.candC; Sample.candB; Sample.candA]
       Sample.scenarioObjectives).1 ∧
  DominanceEngine.id <$>
    (DominanceEngine.computeFront [Sample.candA; Sample.candB; Sample.candC]
       Sample.scenarioObjectives).2
  = DominanceEngine.id <$>
    (DominanceEngine.computeFront [Sample.candC; Sample.candB; Sample.candA]
       Sample.scenarioObjectives).2 ∧
  (NoDup (map DominanceEngine.id [Sample.candA; Sample.candB; Sample.candC]) →
   (DominanceEngine.computeFront [Sample.candA; Sample.candB; Sample.candC]
      Sample.scenarioObjectives).2
   = (DominanceEngine.computeFront [Sample.candC; Sample.candB; Sample.candA]
        Sample.scenarioObjectives).2) ∧
  match (DominanceEngine.computeFront [Sample.candA; Sample.candB; Sample.candC]
           Sample.scenarioObjectives).2 with
  | Some b =>
      In b (DominanceEngine.computeFront [Sample.candA; Sample.candB; Sample.candC]
              Sample.scenarioObjectives).1 ∧
      ∀ c, In c (DominanceEngine.computeFront [Sample.candA; Sample.candB; Sample.candC]
                   Sample.scenarioObjectives).1 →
           String.leb (DominanceEngine.id b) (DominanceEngine.id c) = true
  | None =>
      (DominanceEngine.computeFront [Sample.candA; Sample.candB; Sample.candC]
         Sample.scenarioObjectives).1 = []
  end.
Proof.
  apply (DominanceFacts.computeFront_deterministic
           [Sample.candA; Sample.candB; Sample.candC]
           [Sample.candC; Sample.candB; Sample.candA] Sample.scenarioObjectives).
  apply (perm_trans (l' := [Sample.candB; Sample.candA; Sample.candC])).
  - apply perm_swap.
  - apply (perm_trans (l' := [Sample.candB; Sample.candC; Sample.candA])).
    + apply perm_skip. apply perm_swap.
    + apply perm_swap.
Defined.

(* ===================================================================== *)
(** ** The model on concrete inputs *)
(* ===================================================================== *)

(** The scenario of the specification: C is dominated, A has the smaller id. *)
Example computeFront_scenario :
  DominanceEngine.computeFront [Sample.candA; Sample.candB; Sample.candC]
    Sample.scenarioObjectives
  = ([Sample.candA; Sample.candB], Some Sample.candA).
Proof. vm_compute. reflexivity. Qed.

(** The sample session, delivered in three chunks, leaves two log lines, the
    front in the chart, and a page that is no longer running. *)
Example sample_session_outcome :
  let w := processStream (RT := Sample.runtime)
             {| chunks := Sample.cut Sample.wire; ending := EndOfStream |}
             (startSession (Sample.world Sample.readyPage)) in
  map message (logs (page w)) = ["Athena: Planning the query"; "System: Discovery complete"] ∧
  isRunning (page w) = false ∧
  chartData (page w) = getProp Sample.front "pareto_front" ∧
  finalCandidate (page w) = getProp Sample.final "final_candidate" ∧
  map status (agents (page w))
  = [JStr "idle"; JStr "thinking"; JStr "idle"; JStr "idle"; JStr "idle"].
Proof. vm_compute. repeat split; reflexivity. Qed.

(** A log field that cannot be written into a template literal makes the
    handler throw after the candidate is stored: the page keeps running. *)
Example template_literal_throws :
  let data := JObj {[ "final_candidate" := JObj ∅;
                      "log" := JObj {[ "toString" := JNum 1%float ]} ]} in
  ∃ w', handleStreamData (RT := Sample.runtime) data
          (startSession (Sample.world Sample.readyPage)) = Thrown w' ∧
        isRunning (page w') = true ∧ finalCandidate (page w') = JObj ∅.
Proof. eexists. vm_compute. repeat split; reflexivity. Qed.

(** Four retries in a row, each answered with status 500: four requests. *)
Example retry_four_times :
  countFetch
    (effects (retryClicks (RT := Sample.runtime) (repeat (HttpNotOk 500) 4)
                (Sample.world Sample.failedPage)))
  = 4.
Proof. vm_compute. reflexivity. Qed.

(** With three retries counted, a call of handleRetry requests nothing. *)
Lemma handleRetry_exhausted_witness :
  handleRetry (RT := Sample.runtime)
    {| prompt := ""; isRunning := false; logs := []; chartData := JArr [];
       finalCandidate := JNull; objectives := [];
       openaiApiKey := ""; googleApiKey := ""; mpApiKey := "";
       retryCount := 3; hasError := true; agents := initialAgents |}
    (HttpNotOk 500) (Sample.world Sample.failedPage)
  = addLog (RT := Sample.runtime)
      "System: Maximum retry attempts reached. Please check your configuration and try again later."
      (Sample.world Sample.failedPage).
Proof.
  apply (handleRetry_exhausted (RT := Sample.runtime)).
  simpl. lia.
Defined.

(* ===================================================================== *)
(** ** A read that fails *)
(* ===================================================================== *)

(** When a read fails, the lines received until then have been handled as
    usual; the failure is then logged, the error flag is set and the page
    stops running. The text still in the buffer is dropped. *)
Theorem read_failure_flags_error `{RT : Runtime}
    (handler : JsValue → World → Outcome) (chunks : list (list Byte.byte)) (w : World) :
  processStreamWith handler {| chunks := chunks; ending := ReadFailure |} w
  = streamFailed (processStreamWith handler {| chunks := chunks; ending := EndOfStream |} w) ∧
  hasError (page (processStreamWith handler {| chunks := chunks; ending := ReadFailure |} w))
  = true ∧
  isRunning (page (processStreamWith handler {| chunks := chunks; ending := ReadFailure |} w))
  = false.
Proof.
  rewrite !processStreamWith_lines. done.
Qed.

(* ===================================================================== *)
(** ** What a stream leaves alone *)
(* ===================================================================== *)

Section Frames.
Context `{RT : Runtime}.

Lemma keepsSession_refl (w : World) : keepsSession w w.
Proof. by repeat split. Qed.

Lemma keepsSession_trans (w1 w2 w3 : World) :
  keepsSession w1 w2 → keepsSession w2 w3 → keepsSession w1 w3.
Proof.
  intros (P1 & O1 & G1 & M1 & J1 & A1 & L1 & E1 & T1) (P2 & O2 & G2 & M2 & J2 & A2 & L2 & E2 & T2).
  repeat split; try congruence; try (by etrans); lia.
Qed.

Lemma quietStep_refl (w : World) : quietStep w w.
Proof. split; [apply keepsSession_refl | done]. Qed.

Lemma quietStep_trans (w1 w2 w3 : World) :
  quietStep w1 w2 → quietStep w2 w3 → quietStep w1 w3.
Proof.
  intros (K1 & R1 & H1 & I1) (K2 & R2 & H2 & I2).
  split; [by eapply keepsSession_trans |]. repeat split; try congruence. auto.
Qed.

Lemma roster_update (f : AgentStatus → bool) (v : JsValue) (l : list AgentStatus) :
  map agentIdentity
    (map (fun a => if f a then {| icon := icon a; name := name a; status := v; color := color a |}
                   else a) l)
  = map agentIdentity l.
Proof. rewrite map_map. apply map_ext. intros a. by destruct (f a). Qed.

Ltac unfold_handling :=
  unfold tryHandle, handleStreamData, thenDo, whenP, addLogTemplate, run, throw, parseFailed,
    andThen, skip.

Ltac solve_prefix :=
  simpl; rewrite <- ?app_assoc; repeat (apply prefix_app_r); reflexivity.

Ltac solve_quiet :=
  split; [repeat split; simpl; rewrite ?roster_update; try done; try solve_prefix; try lia
         | repeat split; simpl; try done ].

(** Handling one event, its exceptions included. *)
Lemma tryHandle_quiet (data : JsValue) (w : World) :
  quietStep w (tryHandle handleStreamData data w).
Proof.
  unfold_handling.
  destruct data; simpl; repeat case_match; simplify_eq; solve_quiet.
Qed.

Lemma parseFailed_quiet (w : World) : quietStep w (parseFailed w).
Proof. unfold parseFailed, andThen. solve_quiet. Qed.

Lemma processLine_quiet (line : string) (w : World) :
  quietStep w (processLine handleStreamData line w).
Proof.
  unfold processLine. destruct (startsWith "data: " line); [|apply quietStep_refl].
  destruct (JSON_parse (slice 6 line)); [apply tryHandle_quiet | apply parseFailed_quiet].
Qed.

Lemma forLines_quiet (lines : list string) (w : World) :
  quietStep w (forLines handleStreamData lines w).
Proof.
  revert w. induction lines as [|line lines IH]; intros w; [apply quietStep_refl |].
  rewrite forLines_cons. eapply quietStep_trans; [apply processLine_quiet | apply IH].
Qed.

Lemma streamFailed_keeps (w : World) :
  keepsSession w (streamFailed w) ∧ retryCount (page (streamFailed w)) = retryCount (page w).
Proof. unfold streamFailed, andThen. solve_quiet. Qed.

(** A whole stream, however it ends. *)
Lemma processStream_keeps (body : Body) (w : World) :
  keepsSession w (processStream body w) ∧
  retryCount (page (processStream body w)) = retryCount (page w).
Proof.
  unfold processStream. rewrite processStreamWith_lines.
  destruct (forLines_quiet
              (completeLines (TextDecoder_decode TextDecoder_new (concat (chunks body))).2) w)
    as (K & R & _ & _).
  destruct (ending body); simpl; [done |].
  destruct (streamFailed_keeps
              (forLines handleStreamData
                 (completeLines (TextDecoder_decode TextDecoder_new (concat (chunks body))).2) w))
    as [K' R'].
  split; [by eapply keepsSession_trans | congruence].
Qed.

(** A stream that ends normally. *)
Lemma processStream_quiet (chunks : list (list Byte.byte)) (w : World) :
  quietStep w (processStream {| chunks := chunks; ending := EndOfStream |} w).
Proof. unfold processStream. rewrite processStreamWith_lines. apply forLines_quiet. Qed.

End Frames.

Section Streams.
Context `{RT : Runtime}.

(** A stream never touches what the user typed, the objectives or the retry
    count, and the agents stay who they are: same icons, names and colors,
    in the same order, whatever the events say and however the stream ends. *)
Theorem stream_keeps_inputs_and_roster (body : Body) (w : World) :
  prompt (page (processStream body w)) = prompt (page w) ∧
  openaiApiKey (page (processStream body w)) = openaiApiKey (page w) ∧
  googleApiKey (page (processStream body w)) = googleApiKey (page w) ∧
  mpApiKey (page (processStream body w)) = mpApiKey (page w) ∧
  objectives (page (processStream body w)) = objectives (page w) ∧
  retryCount (page (processStream body w)) = retryCount (page w) ∧
  map agentIdentity (agents (page (processStream body w)))
  = map agentIdentity (agents (page w)).
Proof.
  destruct (processStream_keeps body w) as [(P & O & G & M & J & A & _) R].
  by repeat split.
Qed.

(** A stream only appends: the log entries and the effects that were there
    stay, in place and unchanged, and the clock readings only go up. *)
Theorem stream_appends_only (body : Body) (w : World) :
  logs (page w) `prefix_of` logs (page (processStream body w)) ∧
  effects w `prefix_of` effects (processStream body w) ∧
  ticks w ≤ ticks (processStream body w).
Proof.
  destruct (processStream_keeps body w) as [(_ & _ & _ & _ & _ & _ & L & E & T) _].
  by repeat split.
Qed.

(** No event sets the page running: a page that is not running when the
    stream starts, or stops running during it, is not running at its end. *)
Theorem stream_never_restarts (body : Body) (w : World) :
  isRunning (page w) = false →
  isRunning (page (processStream body w)) = false.
Proof.
  intros Hw. unfold processStream. rewrite processStreamWith_lines.
  destruct (ending body); simpl.
  - by apply forLines_quiet.
  - done.
Qed.

(** Lines that fail to parse, and events that make the handler throw, do
    not raise the error flag: a stream that ends normally leaves it as it
    was, so the Retry button does not appear because of them. *)
Theorem normal_end_keeps_error_flag (chunks : list (list Byte.byte)) (w : World) :
  hasError (page (processStream {| chunks := chunks; ending := EndOfStream |} w))
  = hasError (page w).
Proof. by destruct (processStream_quiet chunks w) as (_ & _ & H & _). Qed.

Lemma tryHandle_isRunning (data : JsValue) (w : World) :
  truthy (getProp data "final_candidate") = false →
  isRunning (page (tryHandle handleStreamData data w)) = isRunning (page w).
Proof.
  intros Hfc. unfold tryHandle, handleStreamData, thenDo, whenP, addLogTemplate, run, throw,
    parseFailed, andThen, skip.
  destruct data; try done; rewrite ?Hfc; simpl; repeat case_match; by simplify_eq.
Qed.

Lemma processLine_isRunning (line : string) (w : World) :
  terminalLine line = false →
  isRunning (page (processLine handleStreamData line w)) = isRunning (page w).
Proof.
  unfold terminalLine, processLine.
  destruct (startsWith "data: " line); [|done]. rewrite andb_true_l.
  destruct (JSON_parse (slice 6 line)) as [data|]; [apply tryHandle_isRunning |].
  intros _. unfold parseFailed, andThen. done.
Qed.

Lemma forLines_isRunning (lines : list string) (w : World) :
  forallb (fun line => negb (terminalLine line)) lines = true →
  isRunning (page (forLines handleStreamData lines w)) = isRunning (page w).
Proof.
  revert w. induction lines as [|line lines IH]; intros w Hall; [done |].
  simpl in Hall. apply andb_true_iff in Hall as [Hline Hrest]. apply negb_true_iff in Hline.
  rewrite forLines_cons, IH by done. by apply processLine_isRunning.
Qed.

(** A stream that ends normally without a terminal event leaves isRunning
    as it was: the page of a running session goes on showing that it is
    running, and nothing tells the user that the stream is over. *)
Theorem stream_without_terminal_event_keeps_running
    (chunks : list (list Byte.byte)) (w : World) :
  forallb (fun line => negb (terminalLine line))
    (completeLines (TextDecoder_decode TextDecoder_new (concat chunks)).2) = true →
  isRunning (page (processStream {| chunks := chunks; ending := EndOfStream |} w))
  = isRunning (page w) ∧
  hasError (page (processStream {| chunks := chunks; ending := EndOfStream |} w))
  = hasError (page w).
Proof.
  intros Hlines. split.
  - unfold processStream. rewrite processStreamWith_lines. by apply forLines_isRunning.
  - by destruct (processStream_quiet chunks w) as (_ & _ & H & _).
Qed.

(** Text after the last newline is never handled: when the stream ends, a
    last record that is not closed by a newline is dropped, well-formed or
    not, and the stream is handled like the text before it. *)
Theorem unterminated_tail_dropped (handler : JsValue → World → Outcome)
    (chunks : list (list Byte.byte)) (text tail : string) (w : World) :
  endsAtLineBreak text = true →
  hasNewline tail = false →
  (TextDecoder_decode TextDecoder_new (concat chunks)).2 = text +:+ tail →
  processStreamWith handler {| chunks := chunks; ending := EndOfStream |} w
  = forLines handler (completeLines text) w.
Proof.
  intros Htext Htail Hdecoded.
  rewrite processStreamWith_lines. simpl. rewrite Hdecoded.
  rewrite completeLines_aligned by done.
  by rewrite (completeLines_no_newline tail), app_nil_r.
Qed.

(** Only the bytes count, not how they arrive: two deliveries of the same
    bytes, cut into chunks in any two ways (empty chunks included), leave
    the same world, for any bytes at all and for both ways a stream ends. *)
Theorem chunking_irrelevant (handler : JsValue → World → Outcome)
    (chunks1 chunks2 : list (list Byte.byte)) (e : StreamEnd) (w : World) :
  concat chunks1 = concat chunks2 →
  processStreamWith handler {| chunks := chunks1; ending := e |} w
  = processStreamWith handler {| chunks := chunks2; ending := e |} w.
Proof. intros Hsame. rewrite !processStreamWith_lines. simpl. by rewrite Hsame. Qed.

Lemma handleStreamData_terminal (data : JsValue) (w : World) (agentText logText : string) :
  truthy (getProp data "final_candidate") = true →
  ToString (getProp data "agent") = Some agentText →
  ToString (getProp data "log") = Some logText →
  isRunning (page (tryHandle handleStreamData data w)) = false ∧
  finalCandidate (page (tryHandle handleStreamData data w)) = getProp data "final_candidate".
Proof.
  intros Hfc Hagent Hlog.
  unfold tryHandle, handleStreamData, thenDo, whenP, addLogTemplate, run, throw,
    parseFailed, andThen, skip.
  destruct data; try done; rewrite Hfc, Hagent, Hlog; simpl; repeat case_match; by simplify_eq.
Qed.

(** Once a terminal event has arrived the session is over for the page:
    whatever the stream carries before and after the event, and however the
    stream ends, the page is not running at the end. *)
Theorem terminal_event_stops_running
    (body : Body) (before payload after agentText logText : string)
    (data : JsValue) (w : World) :
  endsAtLineBreak before = true →
  hasNewline payload = false →
  JSON_parse payload = Some data →
  truthy (getProp data "final_candidate") = true →
  ToString (getProp data "agent") = Some agentText →
  ToString (getProp data "log") = Some logText →
  (TextDecoder_decode TextDecoder_new (concat (chunks body))).2
    = before +:+ ("data: " +:+ payload) +:+ String newline after →
  isRunning (page (processStream body w)) = false.
Proof.
  intros Hbefore Hpayload Hparse Hfc Hagent Hlog Hdecoded.
  unfold processStream. rewrite processStreamWith_lines.
  destruct (ending body); simpl; [|done].
  rewrite Hdecoded, (completeLines_aligned before), forLines_app by done.
  rewrite completeLines_line by (by rewrite hasNewline_app, Hpayload).
  rewrite forLines_cons, processLine_data, Hparse.
  apply forLines_quiet.
  by eapply handleStreamData_terminal.
Qed.

End Streams.

(* ===================================================================== *)
(** ** Sessions and the user *)
(* ===================================================================== *)

Section Outcomes.
Context `{RT : Runtime}.

Ltac solve_keeps :=
  repeat split; simpl; try done; try (simpl; rewrite <- ?app_assoc;
    repeat (apply prefix_app_r); reflexivity); try lia.

Lemma consumeResponse_keeps (resp : Response) (w : World) :
  keepsSession w (consumeResponse resp w) ∧
  retryCount (page (consumeResponse resp w)) = retryCount (page w).
Proof.
  destruct resp as [|httpStatus| |body]; simpl.
  - split; [apply keepsSession_refl | done].
  - unfold andThen. solve_keeps.
  - unfold andThen. solve_keeps.
  - apply processStream_keeps.
Qed.

Lemma credentials_missing (snap : PageState) :
  mpApiKey snap = "" ∨ (openaiApiKey snap = "" ∧ googleApiKey snap = "") →
  emptyStr (mpApiKey snap) || (emptyStr (openaiApiKey snap) && emptyStr (googleApiKey snap))
  = true.
Proof. intros [-> | [-> ->]]; [done |]. simpl. apply orb_true_r. Qed.

(** A rejected fetch is caught nowhere: the page stays running, without a
    log line and without the error flag, so Start stays disabled and the
    Retry button is not offered. *)
Theorem rejected_fetch_leaves_running (snap : PageState) (w : World) :
  mpApiKey snap ≠ "" →
  openaiApiKey snap ≠ "" ∨ googleApiKey snap ≠ "" →
  isRunning (page (handleDiscovery snap FetchRejected w)) = true ∧
  hasError (page (handleDiscovery snap FetchRejected w)) = false ∧
  logs (page (handleDiscovery snap FetchRejected w)) = [] ∧
  retryButtonEnabled (page (handleDiscovery snap FetchRejected w)) = false.
Proof.
  intros Hmp Hllm. by rewrite handleDiscovery_checked.
Qed.

(** Every failure the page is told about (a response that is not OK, a
    response without a body, a read that fails) ends the session the same
    way: error flag set, not running, retry count zero, Retry enabled. *)
Theorem failed_response_enables_retry (snap : PageState) (resp : Response) (w : World) :
  mpApiKey snap ≠ "" →
  openaiApiKey snap ≠ "" ∨ googleApiKey snap ≠ "" →
  failedResponse resp = true →
  hasError (page (handleDiscovery snap resp w)) = true ∧
  isRunning (page (handleDiscovery snap resp w)) = false ∧
  retryCount (page (handleDiscovery snap resp w)) = 0 ∧
  retryButtonEnabled (page (handleDiscovery snap resp w)) = true.
Proof.
  intros Hmp Hllm Hfailed. rewrite handleDiscovery_checked by done.
  assert (hasError (page (consumeResponse resp (requestDiscover snap (startSession w)))) = true ∧
          isRunning (page (consumeResponse resp (requestDiscover snap (startSession w)))) = false)
    as [Herr Hrun].
  { destruct resp as [|httpStatus| |body]; try done.
    simpl in *. unfold processStream. rewrite processStreamWith_lines.
    by destruct (ending body). }
  destruct (consumeResponse_keeps resp (requestDiscover snap (startSession w))) as [_ Hcount].
  assert (retryCount (page (consumeResponse resp (requestDiscover snap (startSession w)))) = 0)
    as Hzero by (by rewrite Hcount).
  repeat split; try done.
  unfold retryButtonEnabled. by rewrite Herr, Hrun, Hzero.
Qed.

(** A session never alters what the user typed: the goal and the three keys
    are after handleDiscovery and after handleRetry what they were before,
    whatever the response. *)
Theorem session_keeps_goal_and_keys (snap : PageState) (resp : Response) (w : World) :
  (prompt (page (handleDiscovery snap resp w)) = prompt (page w) ∧
   openaiApiKey (page (handleDiscovery snap resp w)) = openaiApiKey (page w) ∧
   googleApiKey (page (handleDiscovery snap resp w)) = googleApiKey (page w) ∧
   mpApiKey (page (handleDiscovery snap resp w)) = mpApiKey (page w)) ∧
  (prompt (page (handleRetry snap resp w)) = prompt (page w) ∧
   openaiApiKey (page (handleRetry snap resp w)) = openaiApiKey (page w) ∧
   googleApiKey (page (handleRetry snap resp w)) = googleApiKey (page w) ∧
   mpApiKey (page (handleRetry snap resp w)) = mpApiKey (page w)).
Proof.
  assert (∀ w0, prompt (page (handleDiscovery snap resp w0)) = prompt (page w0) ∧
                openaiApiKey (page (handleDiscovery snap resp w0)) = openaiApiKey (page w0) ∧
                googleApiKey (page (handleDiscovery snap resp w0)) = googleApiKey (page w0) ∧
                mpApiKey (page (handleDiscovery snap resp w0)) = mpApiKey (page w0)) as Hdisc.
  { intros w0. unfold handleDiscovery.
    destruct (emptyStr (mpApiKey snap) ||
              (emptyStr (openaiApiKey snap) && emptyStr (googleApiKey snap))); [done |].
    unfold andThen.
    destruct (consumeResponse_keeps resp (requestDiscover snap (startSession w0)))
      as [(P & O & G & M & _) _].
    by rewrite P, O, G, M. }
  split; [apply Hdisc |].
  unfold handleRetry. destruct (retryCount snap <? 3); [|done].
  unfold andThen.
  destruct (Hdisc (addLog ("System: Retry attempt " +:+ natToString (retryCount snap + 1) +:+
                           "/3...") (setRetryCount (fun prev => prev + 1) w)))
    as (P & O & G & M).
  by rewrite P, O, G, M.
Qed.

(** One Retry click on a page whose credential check fails. *)
Lemma clickRetry_keyless (resp : Response) (w : World) :
  mpApiKey (page w) = "" ∨ (openaiApiKey (page w) = "" ∧ googleApiKey (page w) = "") →
  hasError (page w) = true →
  isRunning (page w) = false →
  mpApiKey (page (clickRetry resp w)) = mpApiKey (page w) ∧
  openaiApiKey (page (clickRetry resp w)) = openaiApiKey (page w) ∧
  googleApiKey (page (clickRetry resp w)) = googleApiKey (page w) ∧
  hasError (page (clickRetry resp w)) = true ∧
  isRunning (page (clickRetry resp w)) = false ∧
  retryCount (page (clickRetry resp w))
  = (if retryCount (page w) <? 3 then S (retryCount (page w)) else retryCount (page w)) ∧
  countFetch (effects (clickRetry resp w)) = countFetch (effects w) ∧
  countAlert (effects (clickRetry resp w))
  = countAlert (effects w) + (if retryCount (page w) <? 3 then 1 else 0).
Proof.
  intros Hkeys Herr Hrun. unfold clickRetry.
  assert (retryButtonEnabled (page w) = (retryCount (page w) <? 3)) as ->.
  { unfold retryButtonEnabled. by rewrite Herr, Hrun, andb_true_r, andb_true_l, Nat.ltb_antisym. }
  destruct (retryCount (page w) <? 3) eqn:Hlt.
  - apply Nat.ltb_lt in Hlt.
    rewrite handleRetry_allowed by done.
    unfold handleDiscovery. rewrite credentials_missing by done.
    unfold countFetch, countAlert, emit. simpl.
    rewrite !List.filter_app, !length_app. simpl.
    repeat split; try done; lia.
  - repeat split; try done; lia.
Qed.

(** The only way the retry count goes up: Retry clicks on a page whose keys
    are missing. Each click below the bound shows the alert, requests
    nothing and counts; from three on the button is disabled and further
    clicks do nothing. *)
Theorem retry_without_keys_counts (resps : list Response) (w : World) :
  mpApiKey (page w) = "" ∨ (openaiApiKey (page w) = "" ∧ googleApiKey (page w) = "") →
  hasError (page w) = true →
  isRunning (page w) = false →
  retryCount (page w) = 0 →
  retryCount (page (retryClicks resps w)) = Nat.min 3 (length resps) ∧
  countAlert (effects (retryClicks resps w)) = countAlert (effects w) + Nat.min 3 (length resps) ∧
  countFetch (effects (retryClicks resps w)) = countFetch (effects w) ∧
  retryButtonEnabled (page (retryClicks resps w)) = (length resps <? 3).
Proof.
  intros Hkeys Herr Hrun Hzero.
  assert (∀ w0, (mpApiKey (page w0) = "" ∨
                 (openaiApiKey (page w0) = "" ∧ googleApiKey (page w0) = "")) →
            hasError (page w0) = true → isRunning (page w0) = false →
            retryCount (page w0) ≤ 3 →
            hasError (page (retryClicks resps w0)) = true ∧
            isRunning (page (retryClicks resps w0)) = false ∧
            retryCount (page (retryClicks resps w0))
            = Nat.min 3 (retryCount (page w0) + length resps) ∧
            countAlert (effects (retryClicks resps w0))
            = countAlert (effects w0) +
              (Nat.min 3 (retryCount (page w0) + length resps) - retryCount (page w0)) ∧
            countFetch (effects (retryClicks resps w0)) = countFetch (effects w0)) as Hgen.
  { clear. induction resps as [|resp resps IH]; intros w0 Hkeys Herr Hrun Hle.
    - change (retryClicks [] w0) with w0. change (length (@nil Response)) with 0.
      repeat split; try done; lia.
    - change (retryClicks (resp :: resps) w0) with (retryClicks resps (clickRetry resp w0)).
      change (length (resp :: resps)) with (S (length resps)).
      destruct (clickRetry_keyless resp w0 Hkeys Herr Hrun)
        as (M & O & G & E & R & C & F & A).
      destruct (IH (clickRetry resp w0)) as (E' & R' & C' & A' & F'); try done.
      { by rewrite M, O, G. }
      { rewrite C. destruct (retryCount (page w0) <? 3) eqn:Hlt; [|done].
        apply Nat.ltb_lt in Hlt. lia. }
      rewrite C', A', F', C, F, A.
      destruct (retryCount (page w0) <? 3) eqn:Hlt.
      + apply Nat.ltb_lt in Hlt. repeat split; try done; lia.
      + apply Nat.ltb_ge in Hlt. repeat split; try done; lia. }
  destruct (Hgen w Hkeys Herr Hrun) as (E & R & C & A & F); [lia |].
  rewrite Hzero in C, A. rewrite Nat.add_0_l in C, A. rewrite Nat.sub_0_r in A.
  repeat split; try done.
  unfold retryButtonEnabled. rewrite E, R, C, andb_true_r, andb_true_l, <- Nat.ltb_antisym.
  destruct (length resps <? 3) eqn:Hlen.
  - apply Nat.ltb_lt in Hlen. apply Nat.ltb_lt. lia.
  - apply Nat.ltb_ge in Hlen. apply Nat.ltb_ge. lia.
Qed.

End Outcomes.

Section Reachable.
Context `{RT : Runtime}.

(** The page a session leaves, from the reset on. *)
Lemma session_invariant (snap : PageState) (resp : Response) (w : World) :
  pageInvariant (page (consumeResponse resp (requestDiscover snap (startSession w)))).
Proof.
  destruct (consumeResponse_keeps resp (requestDiscover snap (startSession w)))
    as [(_ & _ & _ & _ & J & A & _) R].
  unfold pageInvariant. rewrite J, A, R.
  split; [done |]. split; [simpl; lia |]. split; [done |].
  split; [|simpl; intros; lia].
  destruct resp as [|httpStatus| |body]; try done.
  unfold consumeResponse, processStream. rewrite processStreamWith_lines.
  destruct (ending body) eqn:Hend; unfold finish, skip; [|done].
  intros _.
  by destruct (forLines_quiet
                 (completeLines (TextDecoder_decode TextDecoder_new (concat (chunks body))).2)
                 (requestDiscover snap (startSession w))) as (_ & _ & -> & _).
Qed.

Lemma handleDiscovery_invariant (snap : PageState) (resp : Response) (w : World) :
  pageInvariant (page w) → pageInvariant (page (handleDiscovery snap resp w)).
Proof.
  intros Hw. unfold handleDiscovery.
  destruct (emptyStr (mpApiKey snap) ||
            (emptyStr (openaiApiKey snap) && emptyStr (googleApiKey snap))); [done |].
  apply session_invariant.
Qed.

Lemma userEvent_invariant (ev : UserEvent) (w : World) :
  pageInvariant (page w) → pageInvariant (page (userEvent ev w)).
Proof.
  intros Hw. destruct ev as [v|v|v|v|resp|resp]; simpl; try done.
  - by destruct (isRunning (page w)).
  - destruct (isRunning (page w)); [done |]. by apply handleDiscovery_invariant.
  - unfold clickRetry, retryButtonEnabled.
    destruct (hasError (page w)) eqn:Herr; [|done].
    destruct (3 <=? retryCount (page w)) eqn:Hge; [done |].
    destruct (isRunning (page w)) eqn:Hrun; [done |].
    change (negb false) with true. cbv iota beta. rewrite !andb_true_l.
    apply Nat.leb_gt in Hge. rewrite handleRetry_allowed by done.
    unfold handleDiscovery.
    destruct (emptyStr (mpApiKey (page w)) ||
              (emptyStr (openaiApiKey (page w)) && emptyStr (googleApiKey (page w)))).
    + destruct Hw as (J & _ & A & _ & _). unfold pageInvariant. simpl.
      rewrite J, A, Herr, Hrun. repeat split; try done. lia.
    + apply session_invariant.
Qed.

Lemma browse_invariant (evs : list UserEvent) : pageInvariant (page (browse evs)).
Proof.
  unfold browse. induction evs as [|ev evs IH] using rev_ind.
  - unfold pageInvariant. simpl. repeat split; try done; lia.
  - rewrite foldl_snoc. by apply userEvent_invariant.
Qed.

(** Whatever the user does, from the first render on: the retry count never
    exceeds three, and is above zero only on a page that shows an error and
    is not running; a running page never shows an error; and the agents
    are the five of the first render, in order, with their icons and colors. *)
Theorem page_invariants (evs : list UserEvent) :
  retryCount (page (browse evs)) ≤ 3 ∧
  (0 < retryCount (page (browse evs)) →
   hasError (page (browse evs)) = true ∧ isRunning (page (browse evs)) = false) ∧
  (isRunning (page (browse evs)) = true → hasError (page (browse evs)) = false) ∧
  map agentIdentity (agents (page (browse evs))) = map agentIdentity initialAgents.
Proof.
  destruct (browse_invariant evs) as (_ & R & A & E & P).
  split; [done |]. split; [done |]. split; done.
Qed.

(** Nothing ever sets the objectives, so both axes of the chart always get
    the fallback of getAxisProps: the data key x and the label Objective 1,
    for the second axis as for the first. *)
Theorem axes_always_default (evs : list UserEvent) (index : nat) :
  objectives (page (browse evs)) = [] ∧
  getAxisProps (objectives (page (browse evs))) index
  = Some {| Axis.dataKey := "x"; Axis.name := "Objective 1" |}.
Proof.
  destruct (browse_invariant evs) as (J & _). rewrite J. done.
Qed.

End Reachable.

(* ===================================================================== *)
(** ** Axes, cards, tooltip *)
(* ===================================================================== *)

Lemma split_on_nonempty (sep : ascii) (s : string) : split_on sep s ≠ [].
Proof.
  destruct s as [|c s]; simpl; [done |].
  destruct (Ascii.eqb c sep); [done |]. by destruct (split_on sep s).
Qed.

Lemma split_on_none (sep : ascii) (s : string) :
  hasChar sep s = false → split_on sep s = [s].
Proof.
  induction s as [|c s IH]; simpl; [done |].
  intros [Hc Hs]%orb_false_iff. by rewrite Hc, IH.
Qed.

Lemma split_on_some (sep : ascii) (s : string) :
  hasChar sep s = true → ∃ first second more, split_on sep s = first :: second :: more.
Proof.
  induction s as [|c s IH]; simpl; [done |].
  destruct (Ascii.eqb c sep) eqn:Hc; simpl.
  - intros _. pose proof (split_on_nonempty sep s).
    destruct (split_on sep s) as [|l ls]; [done |]. by exists "", l, ls.
  - intros (first & second & more & ->)%IH. by exists (String c first), second, more.
Qed.

Lemma split_on_word (sep : ascii) (first rest : string) :
  hasChar sep first = false →
  split_on sep (first +:+ String sep rest) = first :: split_on sep rest.
Proof.
  induction first as [|c first IH]; simpl; intros Hfirst.
  - by rewrite Ascii.eqb_refl.
  - apply orb_false_iff in Hfirst as [Hc Hfirst]. by rewrite Hc, IH.
Qed.

(** getAxisProps throws exactly on an objective without a space: it has no
    second word to take the name from. *)
Theorem getAxisProps_throws_without_space
    (objectives : list string) (index : nat) (objective : string) :
  objectives !! index = Some objective →
  getAxisProps objectives index = None ↔ hasChar " " objective = false.
Proof.
  intros Hobjective. unfold getAxisProps.
  rewrite (proj2 (Nat.ltb_lt _ _) (lookup_lt_Some _ _ _ Hobjective)), Hobjective.
  destruct (hasChar " " objective) eqn:Hspace.
  - destruct (split_on_some _ _ Hspace) as (first & second & more & ->). simpl.
    split; [done | by intros [=]].
  - by rewrite split_on_none.
Qed.

Lemma toUpperCase_not_underscore (c : ascii) :
  Ascii.eqb c "_" = false → Ascii.eqb (toUpperCase c) "_" = false.
Proof. destruct c as [[] [] [] [] [] [] [] []]; vm_compute; done. Qed.

Lemma capitalizeWords_length (afterWord : bool) (s : string) :
  String.length (capitalizeWords afterWord s) = String.length s.
Proof. revert afterWord. induction s as [|c s IH]; intros b; simpl; [done | by rewrite IH]. Qed.

Lemma replaceUnderscores_length (s : string) :
  String.length (replaceUnderscores s) = String.length s.
Proof. induction s as [|c s IH]; simpl; [done | by rewrite IH]. Qed.

Lemma replaceUnderscores_clean (s : string) : hasChar "_" (replaceUnderscores s) = false.
Proof.
  induction s as [|c s IH]; simpl; [done |]. rewrite IH, orb_false_r.
  by destruct (Ascii.eqb c "_") eqn:Hc.
Qed.

Lemma capitalizeWords_clean (afterWord : bool) (s : string) :
  hasChar "_" s = false → hasChar "_" (capitalizeWords afterWord s) = false.
Proof.
  revert afterWord. induction s as [|c s IH]; intros b; simpl; [done |].
  intros [Hc Hs]%orb_false_iff. rewrite IH, orb_false_r by done.
  destruct (isWordChar c && negb b); [by apply toUpperCase_not_underscore | done].
Qed.

(** An objective of two words, an action and a property name: the data key
    is the name as it is, and the label is the name with its underscores
    made spaces and its words capitalized, of the same length and without
    an underscore, followed by the action in parentheses. *)
Theorem getAxisProps_two_words
    (objectives : list string) (index : nat) (action name : string) :
  objectives !! index = Some (action +:+ " " +:+ name) →
  hasChar " " action = false →
  hasChar " " name = false →
  getAxisProps objectives index
  = Some {| Axis.dataKey := name;
            Axis.name := capitalizeWords false (replaceUnderscores name) +:+
                         " (" +:+ action +:+ ")" |} ∧
  hasChar "_" (capitalizeWords false (replaceUnderscores name)) = false ∧
  String.length (capitalizeWords false (replaceUnderscores name)) = String.length name.
Proof.
  intros Hobjective Haction Hname. split; [|split].
  - unfold getAxisProps.
    rewrite (proj2 (Nat.ltb_lt _ _) (lookup_lt_Some _ _ _ Hobjective)), Hobjective.
    change (action +:+ " " +:+ name) with (action +:+ String " " name).
    by rewrite split_on_word, split_on_none.
  - apply capitalizeWords_clean, replaceUnderscores_clean.
  - by rewrite capitalizeWords_length, replaceUnderscores_length.
Qed.

Lemma AgentStatusCard_renders (a : AgentStatus) :
  is_Some (AgentStatusCard a) ↔ ∃ s, status a = JStr s.
Proof.
  unfold AgentStatusCard.
  destruct (status a) as [| | | |s| |]; split;
    try (intros [? [=]]); try (intros [? [=]]; fail); eauto.
Qed.

Lemma agentCards_renders (l : list AgentStatus) :
  is_Some (mapM AgentStatusCard l) ↔ Forall (fun a => ∃ s, status a = JStr s) l.
Proof.
  rewrite mapM_is_Some. apply Forall_proper; [|done].
  intros a. apply AgentStatusCard_renders.
Qed.

Section Cards.
Context `{RT : Runtime}.

(** The agents after an event: as they were, or with the update of line 153. *)
Lemma tryHandle_agents_cases (data : JsValue) (w : World) :
  agents (page (tryHandle handleStreamData data w)) = agents (page w) ∨
  (truthy (getProp data "agent") = true ∧
   agents (page (tryHandle handleStreamData data w))
   = map (fun a =>
            if strictEqStr (name a) (getProp data "agent")
            then {| icon := icon a; name := name a;
                    status := getProp data "status"; color := color a |}
            else a) (agents (page w))).
Proof.
  destruct (truthy (getProp data "agent")) eqn:Hagent.
  - right. split; [done |]. by apply tryHandle_agents.
  - left. unfold tryHandle, handleStreamData, thenDo, whenP, addLogTemplate, run, throw,
      parseFailed, andThen, skip.
    destruct data; try done; rewrite ?Hagent; simpl; repeat case_match; by simplify_eq.
Qed.

(** A status event that names one of the agents and whose status is not a
    string (missing, null, a number) leaves a page that cannot be drawn:
    the card of that agent throws on status.replace. *)
Theorem status_not_string_breaks_cards (data : JsValue) (w : World) (a : AgentStatus) :
  truthy (getProp data "agent") = true →
  a ∈ agents (page w) →
  JStr (name a) = getProp data "agent" →
  (∀ s, getProp data "status" ≠ JStr s) →
  agentCards (page (tryHandle handleStreamData data w)) = None.
Proof.
  intros Hagent Ha Hname Hstatus.
  apply eq_None_not_Some. unfold agentCards. rewrite agentCards_renders.
  rewrite (tryHandle_agents data w Hagent), Forall_forall.
  intros Hall.
  destruct (Hall {| icon := icon a; name := name a;
                    status := getProp data "status"; color := color a |}) as [s Hs].
  - apply list_elem_of_In, in_map_iff. exists a. split; [|by apply list_elem_of_In].
    by rewrite (proj2 (strictEqStr_spec _ _) Hname).
  - by apply (Hstatus s).
Qed.

Lemma processLine_cards (line : string) (w : World) :
  typedStatusLine line = true →
  is_Some (agentCards (page w)) →
  is_Some (agentCards (page (processLine handleStreamData line w))).
Proof.
  unfold typedStatusLine, processLine.
  destruct (startsWith "data: " line); [|done]. rewrite orb_false_l.
  destruct (JSON_parse (slice 6 line)) as [data|]; [|by intros _].
  intros Htyped. unfold agentCards. rewrite !agentCards_renders.
  destruct (tryHandle_agents_cases data w) as [-> | [Hagent ->]]; [done |].
  rewrite Hagent in Htyped. simpl in Htyped.
  destruct (getProp data "status") as [| | | |s| |] eqn:Hstatus; try done.
  rewrite !Forall_forall. intros Hall b [a [<- Ha]]%list_elem_of_In%in_map_iff.
  destruct (strictEqStr (name a) (getProp data "agent")); [by exists s |].
  by apply Hall, list_elem_of_In.
Qed.

(** As long as every status event of a stream carries a string as status,
    the cards of the agents can be drawn after the stream as before it,
    however the stream ends. *)
Theorem typed_statuses_keep_cards (body : Body) (w : World) :
  forallb typedStatusLine
    (completeLines (TextDecoder_decode TextDecoder_new (concat (chunks body))).2) = true →
  is_Some (agentCards (page w)) →
  is_Some (agentCards (page (processStream body w))).
Proof.
  intros Hlines Hw. unfold processStream. rewrite processStreamWith_lines.
  assert (is_Some (agentCards
            (page (forLines handleStreamData
                     (completeLines
                        (TextDecoder_decode TextDecoder_new (concat (chunks body))).2) w))))
    as Hafter.
  { revert w Hw Hlines.
    induction (completeLines (TextDecoder_decode TextDecoder_new (concat (chunks body))).2)
      as [|line lines IH]; intros w Hw Hlines; [done |].
    simpl in Hlines. apply andb_true_iff in Hlines as [Hline Hlines].
    rewrite forLines_cons. apply IH; [|done]. by apply processLine_cards. }
  by destruct (ending body).
Qed.

End Cards.

(** The chart library hands the tooltip an array; an array, like a string,
    has a length but no property named payload, so for every active tooltip
    with a non-empty array or string as payload CustomTooltip throws on
    data.formula_pretty. *)
Theorem tooltip_throws_on_array (Number_toFixed3 : float → string) (active payload : JsValue) :
  truthy active = true →
  (∃ l, payload = JArr l ∧ l ≠ []) ∨ (∃ s, payload = JStr s ∧ s ≠ "") →
  CustomTooltip Number_toFixed3 active payload = None.
Proof.
  intros Hactive [(l & -> & Hl) | (s & -> & Hs)]; unfold CustomTooltip; rewrite Hactive; simpl.
  - by destruct l.
  - by destruct s.
Qed.

(** The split of the decoder loses nothing: the lines it dispatches, each
    with its newline, followed by what it keeps in the buffer, are the text. *)
Theorem split_lossless (text : string) :
  foldr (fun line rest => line +:+ String newline rest) (remainder text) (completeLines text)
  = text.
Proof.
  unfold completeLines, remainder.
  induction text as [|c text IH]; simpl; [done |].
  pose proof (split_newline_nonempty text) as Hne.
  destruct (Ascii.eqb c newline) eqn:Hc.
  - apply Ascii.eqb_eq in Hc as ->.
    destruct (split_newline text) as [|l ls]; [done |]. simpl in *. by rewrite IH.
  - destruct (split_newline text) as [|l ls]; [done |].
    destruct ls as [|l2 ls]; simpl in *; by rewrite <- IH.
Qed.

Section Buffer.
Context `{RT : Runtime}.

Lemma localsAfter_buffer (handler : JsValue → World → Outcome)
    (reads : list (list Byte.byte)) (loc : Locals) (w : World) :
  buffer (localsAfter handler reads loc w)
  = (if reads is [] then buffer loc
     else remainder (buffer loc +:+ (TextDecoder_decode (decoder loc) (concat reads)).2)) ∧
  decoder (localsAfter handler reads loc w)
  = (TextDecoder_decode (decoder loc) (concat reads)).1.
Proof.
  revert loc w. induction reads as [|value rest IH]; intros loc w; [done |].
  simpl. unfold processChunk, pop. rewrite TextDecoder_decode_app.
  destruct (TextDecoder_decode (decoder loc) value) as [st1 t1] eqn:Hdec. simpl.
  destruct (IH {| decoder := st1; buffer := default "" (last (split_newline (buffer loc +:+ t1))) |}
               (forLines handler (removelast (split_newline (buffer loc +:+ t1))) w))
    as [Hbuf Hst].
  rewrite Hbuf, Hst. simpl. split; [|done].
  fold (remainder (buffer loc +:+ t1)).
  destruct rest as [|value2 rest].
  - simpl. by rewrite append_empty_r.
  - by rewrite <- (append_assoc (buffer loc) t1), (remainder_app (buffer loc +:+ t1)).
Qed.

(** The carry-over buffer: after any reads it holds the text received since
    the last newline, all of it and nothing else, so it never contains a
    newline; and the decoder is in the state of having seen all the bytes. *)
Theorem buffer_holds_open_line (handler : JsValue → World → Outcome)
    (reads : list (list Byte.byte)) (w : World) :
  buffer (localsAfter handler reads {| decoder := TextDecoder_new; buffer := "" |} w)
  = remainder (TextDecoder_decode TextDecoder_new (concat reads)).2 ∧
  hasNewline (buffer (localsAfter handler reads {| decoder := TextDecoder_new; buffer := "" |} w))
  = false ∧
  decoder (localsAfter handler reads {| decoder := TextDecoder_new; buffer := "" |} w)
  = (TextDecoder_decode TextDecoder_new (concat reads)).1.
Proof.
  destruct (localsAfter_buffer handler reads {| decoder := TextDecoder_new; buffer := "" |} w)
    as [Hbuf Hst].
  assert (buffer (localsAfter handler reads {| decoder := TextDecoder_new; buffer := "" |} w)
          = remainder (TextDecoder_decode TextDecoder_new (concat reads)).2) as Heq.
  { rewrite Hbuf. by destruct reads. }
  split; [done |]. split; [|done]. rewrite Heq. apply remainder_no_newline.
Qed.

End Buffer.

(* ===================================================================== *)
(** ** The added facts on the sample session *)
(* ===================================================================== *)

(** A page that is not running is not set running by the sample stream. *)
Lemma stream_never_restarts_witness :
  isRunning
    (page (processStream (RT := Sample.runtime)
             {| chunks := Sample.cut Sample.wire; ending := EndOfStream |}
             (Sample.world Sample.readyPage)))
  = false.
Proof.
  apply (stream_never_restarts (RT := Sample.runtime)). reflexivity.
Defined.

(** The sample stream without its final event leaves the session running. *)
Lemma stream_without_terminal_event_keeps_running_witness :
  isRunning
    (page (processStream (RT := Sample.runtime)
             {| chunks := Sample.cut
                            (Sample.bytes
                               (encodeStream Sample.stringify [Sample.thinking; Sample.front]));
                ending := EndOfStream |}
             (startSession (Sample.world Sample.readyPage))))
  = isRunning (page (startSession (Sample.world Sample.readyPage))) ∧
  hasError
    (page (processStream (RT := Sample.runtime)
             {| chunks := Sample.cut
                            (Sample.bytes
                               (encodeStream Sample.stringify [Sample.thinking; Sample.front]));
                ending := EndOfStream |}
             (startSession (Sample.world Sample.readyPage))))
  = hasError (page (startSession (Sample.world Sample.readyPage))).
Proof.
  apply (stream_without_terminal_event_keeps_running (RT := Sample.runtime)).
  vm_compute. reflexivity.
Defined.

(** The final record of the sample session, sent without its newlines, is
    not delivered. *)
Lemma unterminated_tail_dropped_witness :
  processStreamWith (RT := Sample.runtime) (handleStreamData (RT := Sample.runtime))
    {| chunks := Sample.cut More.openEnded; ending := EndOfStream |}
    (startSession (Sample.world Sample.readyPage))
  = forLines (RT := Sample.runtime) (handleStreamData (RT := Sample.runtime))
      (completeLines (encodeStream Sample.stringify [Sample.thinking]))
      (startSession (Sample.world Sample.readyPage)).
Proof.
  apply (unterminated_tail_dropped (RT := Sample.runtime) _ _
           (encodeStream Sample.stringify [Sample.thinking]) ("data: " +:+ Sample.finalText)).
  - vm_compute. reflexivity.
  - vm_compute. reflexivity.
  - vm_compute. reflexivity.
Defined.

(** The sample bytes in three chunks and in one, with a read that fails. *)
Lemma chunking_irrelevant_witness :
  processStreamWith (RT := Sample.runtime) (handleStreamData (RT := Sample.runtime))
    {| chunks := Sample.cut Sample.wire; ending := ReadFailure |}
    (Sample.world Sample.readyPage)
  = processStreamWith (RT := Sample.runtime) (handleStreamData (RT := Sample.runtime))
      {| chunks := [Sample.wire]; ending := ReadFailure |}
      (Sample.world Sample.readyPage).
Proof.
  apply (chunking_irrelevant (RT := Sample.runtime)). vm_compute. reflexivity.
Defined.

(** The sample session is over once its final event has arrived. *)
Lemma terminal_event_stops_running_witness :
  isRunning
    (page (processStream (RT := Sample.runtime)
             {| chunks := Sample.cut Sample.wire; ending := EndOfStream |}
             (startSession (Sample.world Sample.readyPage))))
  = false.
Proof.
  apply (terminal_event_stops_running (RT := Sample.runtime)
           {| chunks := Sample.cut Sample.wire; ending := EndOfStream |}
           (encodeStream Sample.stringify [Sample.thinking; Sample.front])
           Sample.finalText (String newline "") "undefined" "Discovery complete" Sample.final).
  - vm_compute. reflexivity.
  - vm_compute. reflexivity.
  - vm_compute. reflexivity.
  - vm_compute. reflexivity.
  - vm_compute. reflexivity.
  - vm_compute. reflexivity.
  - vm_compute. reflexivity.
Defined.

(** A rejected fetch on the page with its keys. *)
Lemma rejected_fetch_leaves_running_witness :
  isRunning (page (handleDiscovery (RT := Sample.runtime) Sample.readyPage FetchRejected
                     (Sample.world Sample.readyPage))) = true ∧
  hasError (page (handleDiscovery (RT := Sample.runtime) Sample.readyPage FetchRejected
                    (Sample.world Sample.readyPage))) = false ∧
  logs (page (handleDiscovery (RT := Sample.runtime) Sample.readyPage FetchRejected
                (Sample.world Sample.readyPage))) = [] ∧
  retryButtonEnabled
    (page (handleDiscovery (RT := Sample.runtime) Sample.readyPage FetchRejected
             (Sample.world Sample.readyPage))) = false.
Proof.
  apply (rejected_fetch_leaves_running (RT := Sample.runtime)).
  - discriminate.
  - right. discriminate.
Defined.

(** A read that fails in the middle of the sample session. *)
Lemma failed_response_enables_retry_witness :
  hasError
    (page (handleDiscovery (RT := Sample.runtime) Sample.readyPage
             (Streaming {| chunks := [take 40 Sample.wire]; ending := ReadFailure |})
             (Sample.world Sample.readyPage))) = true ∧
  isRunning
    (page (handleDiscovery (RT := Sample.runtime) Sample.readyPage
             (Streaming {| chunks := [take 40 Sample.wire]; ending := ReadFailure |})
             (Sample.world Sample.readyPage))) = false ∧
  retryCount
    (page (handleDiscovery (RT := Sample.runtime) Sample.readyPage
             (Streaming {| chunks := [take 40 Sample.wire]; ending := ReadFailure |})
             (Sample.world Sample.readyPage))) = 0 ∧
  retryButtonEnabled
    (page (handleDiscovery (RT := Sample.runtime) Sample.readyPage
             (Streaming {| chunks := [take 40 Sample.wire]; ending := ReadFailure |})
             (Sample.world Sample.readyPage))) = true.
Proof.
  apply (failed_response_enables_retry (RT := Sample.runtime)).
  - discriminate.
  - right. discriminate.
  - reflexivity.
Defined.

(** Five Retry clicks on a page without keys: three count, none requests. *)
Lemma retry_without_keys_counts_witness :
  retryCount
    (page (retryClicks (RT := Sample.runtime) (repeat (HttpNotOk 500) 5)
             (Sample.world More.keylessPage)))
  = Nat.min 3 (length (repeat (HttpNotOk 500) 5)) ∧
  countAlert
    (effects (retryClicks (RT := Sample.runtime) (repeat (HttpNotOk 500) 5)
                (Sample.world More.keylessPage)))
  = countAlert (effects (Sample.world More.keylessPage)) +
    Nat.min 3 (length (repeat (HttpNotOk 500) 5)) ∧
  countFetch
    (effects (retryClicks (RT := Sample.runtime) (repeat (HttpNotOk 500) 5)
                (Sample.world More.keylessPage)))
  = countFetch (effects (Sample.world More.keylessPage)) ∧
  retryButtonEnabled
    (page (retryClicks (RT := Sample.runtime) (repeat (HttpNotOk 500) 5)
             (Sample.world More.keylessPage)))
  = (length (repeat (HttpNotOk 500) 5) <? 3).
Proof.
  apply (retry_without_keys_counts (RT := Sample.runtime)).
  - left. reflexivity.
  - reflexivity.
  - reflexivity.
  - reflexivity.
Defined.

(** An objective of one word. *)
Lemma getAxisProps_throws_without_space_witness :
  getAxisProps ["Maximize"] 0 = None ↔ hasChar " " "Maximize" = false.
Proof.
  apply (getAxisProps_throws_without_space ["Maximize"] 0 "Maximize"). reflexivity.
Defined.

(** The second objective of the scenario of the specification. *)
Lemma getAxisProps_two_words_witness :
  getAxisProps ["Maximize band_gap"; "Minimize formation_energy_per_atom"] 1
  = Some {| Axis.dataKey := "formation_energy_per_atom";
            Axis.name := capitalizeWords false (replaceUnderscores "formation_energy_per_atom")
                         +:+ " (" +:+ "Minimize" +:+ ")" |} ∧
  hasChar "_" (capitalizeWords false (replaceUnderscores "formation_energy_per_atom")) = false ∧
  String.length (capitalizeWords false (replaceUnderscores "formation_energy_per_atom"))
  = String.length "formation_energy_per_atom".
Proof.
  apply (getAxisProps_two_words
           ["Maximize band_gap"; "Minimize formation_energy_per_atom"] 1
           "Minimize" "formation_energy_per_atom").
  - reflexivity.
  - reflexivity.
  - reflexivity.
Defined.

(** A status event for Athena without a status. *)
Lemma status_not_string_breaks_cards_witness :
  agentCards
    (page (tryHandle (RT := Sample.runtime) (handleStreamData (RT := Sample.runtime))
             More.statusless (Sample.world Sample.readyPage)))
  = None.
Proof.
  apply (status_not_string_breaks_cards (RT := Sample.runtime) More.statusless
           (Sample.world Sample.readyPage)
           {| icon := IconBeaker; name := "Athena"; status := JStr "idle"; color := "purple" |}).
  - reflexivity.
  - apply list_elem_of_In. right. left. reflexivity.
  - reflexivity.
  - intros s. discriminate.
Defined.

(** The cards after the sample session. *)
Lemma typed_statuses_keep_cards_witness :
  is_Some
    (agentCards
       (page (processStream (RT := Sample.runtime)
                {| chunks := Sample.cut Sample.wire; ending := EndOfStream |}
                (Sample.world Sample.readyPage)))).
Proof.
  apply (typed_statuses_keep_cards (RT := Sample.runtime)).
  - vm_compute. reflexivity.
  - eexists. vm_compute. reflexivity.
Defined.

(** The payload the chart library passes: an array with one entry. *)
Lemma tooltip_throws_on_array_witness :
  CustomTooltip (fun _ => "3.000") (JBool true)
    (JArr [JObj {[ "payload" := JObj {[ "formula_pretty" := JStr "TiO2" ]} ]}])
  = None.
Proof.
  apply tooltip_throws_on_array.
  - reflexivity.
  - left. eexists. split; [reflexivity | discriminate].
Defined.
